(** * PolarXZ kinematics: a shallow embedding of [klippy/kinematics/polarxz.py]

    The Python module works on floats.  They are modelled here by the real
    numbers of the Standard Library: rounding, NaN, infinities and overflow
    are outside the model, every other step of the source is kept
    (comparisons, the order of the checks, the exceptions Python raises,
    the calls made on the objects the module is handed).

    Calls on objects owned by the rest of the firmware ([move.limit_speed],
    [homing_state.set_axes], [homing_state.home_rails]) are recorded, in
    order, in a trace; an exception keeps the trace produced before it. *)

From Stdlib Require Import Reals Lra Lia List String Bool Arith.
From Stdlib Require Import Machin.
Import ListNotations.

Local Open Scope R_scope.

(** ** Python values and exceptions *)

Module Py.

(** Comparisons of two floats, as booleans. *)
Definition ltb (a b : R) : bool := if Rlt_dec a b then true else false.
Definition leb (a b : R) : bool := if Rle_dec a b then true else false.
Definition gtb (a b : R) : bool := ltb b a.
Definition eqb (a b : R) : bool := if Req_dec_T a b then true else false.

(** Truth value of a float in [if x:] and [x or y]. *)
Definition truthy (a : R) : bool := negb (eqb a 0).

(** The exceptions the module can raise. [MoveError None] is
    [move.move_error()] with the default message. *)
Inductive exn : Type :=
| MoveError (msg : option string)
| ZeroDivisionError
| IndexError
| KeyError
| TypeError.

Inductive result (A : Type) : Type :=
| Ok (a : A)
| Raise (e : exn).
Arguments Ok {A} a.
Arguments Raise {A} e.

(** A computation that calls out (calls of type [C], recorded in order)
    and then returns or raises. *)
Definition M (C A : Type) : Type := (list C * result A)%type.

Definition ret {C A} (a : A) : M C A := ([], Ok a).
Definition raise {C A} (e : exn) : M C A := ([], Raise e).
Definition emit {C} (c : C) : M C unit := ([c], Ok tt).
Definition bind {C A B} (m : M C A) (f : A -> M C B) : M C B :=
  match m with
  | (t, Ok a) => let '(t', r) := f a in (t ++ t', r)
  | (t, Raise e) => (t, Raise e)
  end.
Definition when {C} (b : bool) (m : M C unit) : M C unit :=
  if b then m else ret tt.

Definition calls {C A} (m : M C A) : list C := fst m.
Definition outcome {C A} (m : M C A) : result A := snd m.

(** [a / b] on floats. *)
Definition div {C} (a b : R) : M C R :=
  if eqb b 0 then raise ZeroDivisionError else ret (a / b).

(** [l[i]] and [l[i] = v] on a list, for an index [i >= 0]. *)
Definition getitem {C A} (l : list A) (i : nat) : M C A :=
  match nth_error l i with
  | Some a => ret a
  | None => raise IndexError
  end.

Fixpoint update {A} (l : list A) (i : nat) (v : A) : list A :=
  match l, i with
  | [], _ => []
  | _ :: l', O => v :: l'
  | a :: l', S i' => a :: update l' i' v
  end.

Definition setitem {C A} (l : list A) (i : nat) (v : A) : M C (list A) :=
  if Nat.ltb i (List.length l) then ret (update l i v) else raise IndexError.

(** [k in l] for a list of ints. *)
Definition contains (k : nat) (l : list nat) : bool := existsb (Nat.eqb k) l.

End Py.

Notation "x <- m ;; k" := (Py.bind m (fun x => k))
  (at level 61, m at next level, right associativity).
Notation "m ;;; k" := (Py.bind m (fun _ => k))
  (at level 61, right associativity).

(** ** Module-level geometry helpers *)

Definition point : Type := (R * R)%type.

Definition distance (p1 p2 : point) : R :=
  sqrt ((fst p2 - fst p1) ^ 2 + (snd p2 - snd p1) ^ 2).

Definition sqrdistance (p1 p2 : point) : R :=
  (fst p2 - fst p1) ^ 2 + (snd p2 - snd p1) ^ 2.

Definition crosses_point (checkpoint p1 p2 : point) : bool :=
  Py.leb (sqrdistance checkpoint p1) (sqrdistance p1 p2)
  && Py.leb (sqrdistance checkpoint p2) (sqrdistance p1 p2).

Definition distance_point_to_line {C} (p0 p1 p2 : point) : Py.M C R :=
  Py.div
    (Rabs ((fst p2 - fst p1) * (snd p1 - snd p0)
           - (fst p1 - fst p0) * (snd p2 - snd p1)))
    (distance p1 p2).

(** ** Objects the module is handed *)

(** [toolhead.Coord] and the four-component positions of a move. *)
Record Coord : Type := mkCoord { cx : R; cy : R; cz : R; ce : R }.

(** The first two components, as the helpers above read them
    ([p[0]], [p[1]]). *)
Definition xy (c : Coord) : point := (cx c, cy c).

(** A planned move, owned by the planner. *)
Record Move : Type := mkMove {
  start_pos : Coord;
  end_pos : Coord;
  axes_d : Coord;
  move_d : R
}.

(** [move.limit_speed(a, b)]: the two arguments in the order of the call. *)
Record limit_call : Type := limit_speed { ls_first : R; ls_second : R }.

(** What the module reads of a [stepper.PrinterRail]. *)
Record Rail : Type := mkRail {
  get_name : string;
  position_min : R;
  position_max : R;
  position_endstop : R;
  positive_dir : bool
}.

Definition get_range (r : Rail) : R * R := (position_min r, position_max r).

(** [homing_state.set_axes] and [homing_state.home_rails]. *)
Inductive homing_call : Type :=
| set_axes (axes : list nat)
| home_rails (rails : list Rail) (forcepos homepos : list (option R)).

(** ** The kinematics object *)

(** What [__init__] reads from the configuration and keeps unchanged. *)
Record Config : Type := mkConfig {
  stepper_bed_name : string;
  rail_x : Rail;
  rail_z : Rail;
  max_rotational_velocity : R;
  max_rotational_accel : R;
  max_z_velocity : R;
  max_z_accel : R
}.

Record Kin : Type := mkKin {
  config :> Config;
  limit_z : R * R;
  limit_xy2 : R
}.

Definition rails (k : Kin) : list Rail := [rail_x k; rail_z k].

Definition init (c : Config) : Kin :=
  {| config := c; limit_z := (1, -1); limit_xy2 := -1 |}.

Definition axes_min (k : Kin) : Coord :=
  let max_xy := snd (get_range (rail_x k)) in
  let min_z := fst (get_range (rail_z k)) in
  mkCoord (- max_xy) (- max_xy) min_z 0.

Definition axes_max (k : Kin) : Coord :=
  let max_xy := snd (get_range (rail_x k)) in
  let max_z := snd (get_range (rail_z k)) in
  mkCoord max_xy max_xy max_z 0.

(** *** calc_position *)

Fixpoint lookup (d : list (string * R)) (key : string) : option R :=
  match d with
  | [] => None
  | (k', v) :: d' => if String.eqb key k' then Some v else lookup d' key
  end.

Definition dict_get (d : list (string * R)) (key : string) : Py.M Empty_set R :=
  match lookup d key with
  | Some v => Py.ret v
  | None => Py.raise Py.KeyError
  end.

Definition calc_position (k : Kin) (stepper_positions : list (string * R))
  : Py.M Empty_set (list (list R)) :=
  bed_angle <- dict_get stepper_positions (stepper_bed_name k) ;;
  x_pos <- dict_get stepper_positions (get_name (rail_x k)) ;;
  z_pos <- dict_get stepper_positions (get_name (rail_z k)) ;;
  Py.ret [[0.5 * (cos bed_angle * x_pos - z_pos);
           sin bed_angle * x_pos;
           0.5 * (x_pos + z_pos)]].

(** *** set_position, note_z_not_homed, _motor_off

    [set_position] also forwards [newpos] to every stepper; that leaves the
    fields of the kinematics object as they are. *)

Definition set_position (k : Kin) (newpos : Coord) (homing_axes : list nat) : Kin :=
  let k1 :=
    if Py.contains 2 homing_axes
    then mkKin (config k) (get_range (rail_z k)) (limit_xy2 k)
    else k in
  if Py.contains 0 homing_axes && Py.contains 1 homing_axes
  then mkKin (config k1) (limit_z k1) (snd (get_range (rail_x k1)) ^ 2)
  else k1.

Definition note_z_not_homed (k : Kin) : Kin :=
  mkKin (config k) (1, -1) (limit_xy2 k).

Definition _motor_off (k : Kin) (print_time : R) : Kin :=
  mkKin (config k) (1, -1) (-1).

(** *** get_status *)

Definition get_status (k : Kin) (eventtime : R) : string * Coord * Coord :=
  let xy_home := if Py.leb 0 (limit_xy2 k) then "xy"%string else ""%string in
  let z_home :=
    if Py.leb (fst (limit_z k)) (snd (limit_z k)) then "z"%string else ""%string in
  (String.append xy_home z_home, axes_min k, axes_max k).

(** *** _home_axis, home, home2 *)

(** [l[i] -= d] and [l[i] += d] on a list of floats and [None]s. *)
Definition isub (l : list (option R)) (i : nat) (d : R)
  : Py.M homing_call (list (option R)) :=
  v <- Py.getitem l i ;;
  match v with
  | Some a => Py.setitem l i (Some (a - d))
  | None => Py.raise Py.TypeError
  end.

Definition iadd (l : list (option R)) (i : nat) (d : R)
  : Py.M homing_call (list (option R)) :=
  v <- Py.getitem l i ;;
  match v with
  | Some a => Py.setitem l i (Some (a + d))
  | None => Py.raise Py.TypeError
  end.

Definition _home_axis (axis : nat) (rail : Rail) : Py.M homing_call unit :=
  let '(position_min, position_max) := get_range rail in
  homepos <- Py.setitem [None; None; None; None] axis (Some (position_endstop rail)) ;;
  homepos <- (if Nat.eqb axis 0 then Py.setitem homepos 1 (Some 0)
              else Py.ret homepos) ;;
  let forcepos := homepos in
  forcepos <- (if positive_dir rail
               then isub forcepos axis (position_endstop rail - position_min)
               else iadd forcepos axis (position_max - position_endstop rail)) ;;
  Py.emit (home_rails [rail] forcepos homepos).

(** [homing_axes] is what [homing_state.get_axes()] returns. *)
Definition home (k : Kin) (homing_axes : list nat) : Py.M homing_call unit :=
  let home_xy := Py.contains 0 homing_axes || Py.contains 1 homing_axes in
  let home_z := Py.contains 2 homing_axes in
  let updated_axes := if home_xy then [0; 1]%nat else [] in
  let updated_axes := if home_z then updated_axes ++ [2%nat] else updated_axes in
  Py.emit (set_axes updated_axes) ;;;
  Py.when home_xy (_home_axis 0 (rail_x k) ;;; _home_axis 1 (rail_x k)) ;;;
  Py.when home_z (_home_axis 2 (rail_z k)).

(** One turn of the loop of [home2].  The statement [if axis == 1: next]
    evaluates the name [next] and goes on. *)
Definition home2_axis (k : Kin) (axis : nat) : Py.M homing_call unit :=
  Py.when (Nat.eqb axis 1) (Py.ret tt) ;;;
  rail <- Py.getitem (rails k) axis ;;
  let '(position_min, position_max) := get_range rail in
  homepos <- Py.setitem [None; None; None; None] axis (Some (position_endstop rail)) ;;
  let forcepos := homepos in
  forcepos <- (if positive_dir rail
               then isub forcepos axis (1.5 * (position_endstop rail - position_min))
               else iadd forcepos axis (1.5 * (position_max - position_endstop rail))) ;;
  Py.emit (home_rails [rail] forcepos homepos).

Fixpoint home2_loop (k : Kin) (axes : list nat) : Py.M homing_call unit :=
  match axes with
  | [] => Py.ret tt
  | axis :: rest => home2_axis k axis ;;; home2_loop k rest
  end.

Definition home2 (k : Kin) (homing_axes : list nat) : Py.M homing_call unit :=
  home2_loop k homing_axes.

(** *** check_move *)

Definition must_home : string := "Must home axis first".

Definition math_pi : R := PI.

Definition bed_center : point := (0, 0).

Definition bed_radius (k : Kin) : R :=
  distance bed_center (fst bed_center, cx (axes_min k)).

Definition check_move (k : Kin) (move : Move) : Py.M limit_call unit :=
  let end_pos := end_pos move in
  let xy2 := cx end_pos ^ 2 + cy end_pos ^ 2 in
  Py.when (Py.gtb xy2 (limit_xy2 k))
    (if Py.ltb (limit_xy2 k) 0
     then Py.raise (Py.MoveError (Some must_home))
     else Py.raise (Py.MoveError None)) ;;;
  Py.when (Py.truthy (cx (axes_d move)) || Py.truthy (cy (axes_d move)))
    (let pi := 3.1415 in
     let start_xy := xy (start_pos move) in
     let end_xy := xy end_pos in
     let start_radius := distance bed_center start_xy in
     let end_radius := distance bed_center end_xy in
     q <- Py.div (Rmin start_radius end_radius) (bed_radius k) ;;
     let scale := 2 * math_pi * q in
     Py.emit (limit_speed (max_rotational_accel k)
                          (max_rotational_velocity k * scale))) ;;;
  Py.when (Py.truthy (cz (axes_d move)))
    (Py.when (Py.ltb (cz end_pos) (fst (limit_z k))
              || Py.gtb (cz end_pos) (snd (limit_z k)))
       (if Py.gtb (fst (limit_z k)) (snd (limit_z k))
        then Py.raise (Py.MoveError (Some must_home))
        else Py.raise (Py.MoveError None)) ;;;
     z_ratio <- Py.div (move_d move) (Rabs (cz (axes_d move))) ;;
     Py.emit (limit_speed (max_z_velocity k * z_ratio)
                          (max_z_accel k * z_ratio))).

(** *** segment_move *)

(** An end of a returned segment: a position of the move, one of the detour
    points, or [None]. *)
Inductive waypoint : Type :=
| Pos (c : Coord)
| Opt (p : point)
| PyNone.

Definition opt_waypoint (o : option point) : waypoint :=
  match o with
  | Some p => Opt p
  | None => PyNone
  end.

(** The variables of the loop: [closest_to_start], [closest_to_end],
    [closest_end_pos], [closest_start_pos]. *)
Record closest : Type := mkClosest {
  closest_to_start : R;
  closest_to_end : R;
  closest_end_pos : option point;
  closest_start_pos : option point
}.

Definition closest_step (move : Move) (st : closest) (move_option : point) : closest :=
  let dist_to_end := distance move_option (xy (end_pos move)) in
  let dist_to_start := distance move_option (xy (start_pos move)) in
  let st1 :=
    if Py.ltb dist_to_end (closest_to_end st)
    then mkClosest (closest_to_start st) dist_to_end (Some move_option)
                   (closest_start_pos st)
    else st in
  if Py.ltb dist_to_start (closest_to_start st1)
  then mkClosest dist_to_start (closest_to_end st1) (closest_end_pos st1)
                 (Some move_option)
  else st1.

Definition move_options (move : Move) : list point :=
  if Py.eqb (cx (start_pos move)) 0 && Py.eqb (cx (end_pos move)) 0
  then [(0, 0.005); (0, -0.005)]
  else if Py.eqb (cy (start_pos move)) 0 && Py.eqb (cy (end_pos move)) 0
  then [(0.005, 0); (-0.005, 0)]
  else [(0, 0.005); (0.005, 0); (0, -0.005); (-0.005, 0)].

Definition segment_move (k : Kin) (move : Move)
  : option (list (waypoint * waypoint)) :=
  if crosses_point (0, 0) (xy (start_pos move)) (xy (end_pos move))
  then
    let st := fold_left (closest_step move) (move_options move)
                        (mkClosest 100000 100000 None None) in
    let move1 := (Pos (start_pos move), opt_waypoint (closest_start_pos st)) in
    let move2 := (opt_waypoint (closest_start_pos st),
                  opt_waypoint (closest_end_pos st)) in
    let move3 := (opt_waypoint (closest_end_pos st), Pos (end_pos move)) in
    Some [move1; move2; move3]
  else None.

(** ** The life of the kinematics object *)

(** The three ways the limits are written after construction. *)
Inductive event : Type :=
| SetPosition (newpos : Coord) (homing_axes : list nat)
| NoteZNotHomed
| MotorOff (print_time : R).

Definition step (k : Kin) (ev : event) : Kin :=
  match ev with
  | SetPosition newpos homing_axes => set_position k newpos homing_axes
  | NoteZNotHomed => note_z_not_homed k
  | MotorOff print_time => _motor_off k print_time
  end.

(** The object built from [c] after the events [evs], oldest first. *)
Definition run (c : Config) (evs : list event) : Kin :=
  fold_left step evs (init c).

Definition is_motor_off (ev : event) : bool :=
  match ev with MotorOff _ => true | _ => false end.

Definition is_z_reset (ev : event) : bool :=
  match ev with MotorOff _ | NoteZNotHomed => true | _ => false end.

(** A [set_position] whose [homing_axes] satisfy [sel] has occurred, and no
    event satisfying [reset] after it. *)
Definition homed_since (sel : list nat -> bool) (reset : event -> bool)
    (evs : list event) : Prop :=
  exists pre newpos axes post,
    evs = pre ++ SetPosition newpos axes :: post
    /\ sel axes = true
    /\ forallb (fun ev => negb (reset ev)) post = true.

(** A [set_position] naming both planar axes has occurred, and no motor-off
    after it. *)
Definition xy_homed_since : list event -> Prop :=
  homed_since (fun axes => Py.contains 0 axes && Py.contains 1 axes) is_motor_off.

(** A [set_position] naming the Z axis has occurred, and no motor-off or
    [note_z_not_homed] after it. *)
Definition z_homed_since : list event -> Prop :=
  homed_since (Py.contains 2) is_z_reset.

(** ** The statements under study *)

(** *** Limits set by [check_move] *)

Definition planar_displacement (move : Move) : Prop :=
  cx (axes_d move) <> 0 \/ cy (axes_d move) <> 0.

Definition radius_exceeded (k : Kin) (move : Move) : Prop :=
  limit_xy2 k < cx (end_pos move) ^ 2 + cy (end_pos move) ^ 2.

Definition z_outside (k : Kin) (move : Move) : Prop :=
  cz (axes_d move) <> 0
  /\ (cz (end_pos move) < fst (limit_z k) \/ snd (limit_z k) < cz (end_pos move)).

(** The rotational limit, with [p] for pi and the radial rail's maximum
    travel for the bed radius. *)
Definition rotational_limit (p : R) (k : Kin) (move : Move) : limit_call :=
  let start_radius := distance (0, 0) (xy (start_pos move)) in
  let end_radius := distance (0, 0) (xy (end_pos move)) in
  let scale := 2 * p * Rmin start_radius end_radius / position_max (rail_x k) in
  limit_speed (max_rotational_accel k) (max_rotational_velocity k * scale).

Definition rotational_limit_claim (p : R) (k : Kin) (move : Move) : Prop :=
  planar_displacement move -> ~ radius_exceeded k move ->
  hd_error (Py.calls (check_move k move)) = Some (rotational_limit p k move).

(** The vertical limit. *)
Definition vertical_limit (k : Kin) (move : Move) : limit_call :=
  let z_ratio := move_d move / Rabs (cz (axes_d move)) in
  limit_speed (max_z_velocity k * z_ratio) (max_z_accel k * z_ratio).

(** *** Failures of [check_move] *)

Definition unhomed_or_range (unhomed : Prop) (r : Py.result unit) : Prop :=
  (unhomed -> r = Py.Raise (Py.MoveError (Some must_home)))
  /\ (~ unhomed -> r = Py.Raise (Py.MoveError None)).

Definition check_move_errors_claim (k : Kin) (move : Move) : Prop :=
  let r := Py.outcome (check_move k move) in
  (radius_exceeded k move -> unhomed_or_range (limit_xy2 k < 0) r)
  /\ (~ radius_exceeded k move -> z_outside k move ->
      unhomed_or_range (snd (limit_z k) < fst (limit_z k)) r)
  /\ (~ radius_exceeded k move -> ~ z_outside k move -> r = Py.Ok tt).

(** *** Detours of [segment_move] *)

(** The candidates as the specification lists them. *)
Definition detour_candidates (s e : point) : list point :=
  if Py.eqb (fst s) 0 && Py.eqb (fst e) 0 then [(0, 0.005); (0, -0.005)]
  else if Py.eqb (snd s) 0 && Py.eqb (snd e) 0 then [(0.005, 0); (-0.005, 0)]
  else [(0, 0.005); (0, -0.005); (0.005, 0); (-0.005, 0)].

(** [v] is a candidate nearest to [p]. *)
Definition nearest (cands : list point) (p v : point) : Prop :=
  In v cands /\ forall c, In c cands -> distance v p <= distance c p.

Definition segment_move_claim (k : Kin) (move : Move) : Prop :=
  let s := xy (start_pos move) in
  let e := xy (end_pos move) in
  (crosses_point (0, 0) s e = false -> segment_move k move = None)
  /\ (crosses_point (0, 0) s e = true ->
      exists via_start via_end,
        nearest (detour_candidates s e) s via_start
        /\ nearest (detour_candidates s e) e via_end
        /\ segment_move k move =
           Some [(Pos (start_pos move), Opt via_start);
                 (Opt via_start, Opt via_end);
                 (Opt via_end, Pos (end_pos move))]).

(** Some candidate lies less than 100000 away from [p]. *)
Definition within_reach (cands : list point) (p : point) : Prop :=
  exists c, In c cands /\ distance c p < 100000.

(** What the loop of [segment_move] has found for the point [p] after the
    candidates [l]: nothing, every candidate being 100000 away or more, or a
    nearest candidate, less than 100000 away. *)
Definition found_nearest (p : point) (l : list point) (d : R) (o : option point)
  : Prop :=
  (o = None /\ d = 100000 /\ forall c, In c l -> 100000 <= distance c p)
  \/ (exists v, o = Some v /\ d = distance v p /\ d < 100000 /\ nearest l p v).

(** *** Homing moves *)

Definition count_home_rails (l : list homing_call) : nat :=
  List.length (filter (fun c => match c with home_rails _ _ _ => true | _ => false end) l).

(** Requested axes with both planar axes put in when either is there. *)
Definition normalized_axes (homing_axes : list nat) : list nat :=
  (if Py.contains 0 homing_axes || Py.contains 1 homing_axes then [0; 1]%nat else [])
  ++ (if Py.contains 2 homing_axes then [2%nat] else []).

(** One combined homing move for the planar axes, and the move of the
    vertical axis when it is requested too. *)
Definition home_single_move_claim (k : Kin) (homing_axes : list nat) : Prop :=
  Py.contains 0 homing_axes || Py.contains 1 homing_axes = true ->
  exists planar,
    Py.calls (home k homing_axes) =
      set_axes (normalized_axes homing_axes) :: planar
    /\ count_home_rails planar
       = (1 + (if Py.contains 2 homing_axes then 1 else 0))%nat.

(** The position a rail is forced to before homing, [factor] times [span]
    away from the end stop, on the side the homing move starts from. *)
Definition force_offset (rail : Rail) (factor span : R) : R :=
  if positive_dir rail
  then position_endstop rail - factor * span
  else position_endstop rail + factor * span.

(** The travel between the end stop and the far end of the range. *)
Definition homing_travel (rail : Rail) : R :=
  if positive_dir rail
  then position_endstop rail - position_min rail
  else position_max rail - position_endstop rail.

(** The call of [home2] for [axis]: a [home_rails] on one rail, with the end
    stop as home position and a force position [1.5 * span] away. *)
Definition home2_call (span : Rail -> R) (axis : nat) (c : homing_call) : Prop :=
  exists rail forcepos homepos,
    c = home_rails [rail] forcepos homepos
    /\ nth_error homepos axis = Some (Some (position_endstop rail))
    /\ nth_error forcepos axis = Some (Some (force_offset rail 1.5 (span rail))).

Definition home2_claim (span : Rail -> R) (k : Kin) (homing_axes : list nat) : Prop :=
  exists cs,
    home2 k homing_axes = (cs, Py.Ok tt)
    /\ Forall2 (home2_call span) homing_axes cs.

Definition rail_range (rail : Rail) : R := position_max rail - position_min rail.

(** ** Sample configurations and moves *)

Definition origin : Coord := mkCoord 0 0 0 0.

Definition sample_rail_x : Rail := mkRail "stepper_x" 0 200 0 false.
Definition sample_rail_z : Rail := mkRail "stepper_z" 0 300 0 false.

Definition sample_config : Config :=
  mkConfig "stepper_bed" sample_rail_x sample_rail_z 300 3000 25 100.

(** All three axes homed. *)
Definition sample_homed : Kin :=
  set_position (init sample_config) origin [0; 1; 2]%nat.

(** A radial rail whose travel ends at zero. *)
Definition zero_rail_x : Rail := mkRail "stepper_x" (-200) 0 (-200) false.

Definition zero_config : Config :=
  mkConfig "stepper_bed" zero_rail_x sample_rail_z 300 3000 25 100.

Definition zero_homed : Kin :=
  set_position (init zero_config) origin [0; 1; 2]%nat.

(** A lift of 10 at the centre. *)
Definition lift_move : Move :=
  mkMove origin (mkCoord 0 0 10 0) (mkCoord 0 0 10 0) 10.

(** From (-1, 0) to the centre. *)
Definition inward_move : Move :=
  mkMove (mkCoord (-1) 0 0 0) origin (mkCoord 1 0 0 0) 1.

(** From (200, 0) to (0, 200), on the rim of the sample bed. *)
Definition rim_move : Move :=
  mkMove (mkCoord 200 0 0 0) (mkCoord 0 200 0 0) (mkCoord (-200) 200 0 0)
         (200 * sqrt 2).

(** From (3, 0, 0) to (3, 4, 12). *)
Definition rising_move : Move :=
  mkMove (mkCoord 3 0 0 0) (mkCoord 3 4 12 0) (mkCoord 0 4 12 0) (4 * sqrt 10).

(** Stepper positions: bed at angle 0, radial rail at 10, second rail at 2. *)
Definition sample_positions : list (string * R) :=
  [("stepper_bed"%string, 0); ("stepper_x"%string, 10); ("stepper_z"%string, 2)].

(** Homed on all axes, then the Z limit dropped for a safe Z home. *)
Definition sample_history : list event :=
  [SetPosition origin [0; 1; 2]%nat; NoteZNotHomed].

(** A radial rail whose end stop is inside the range. *)
Definition offset_rail_x : Rail := mkRail "stepper_x" (-5) 200 0 false.

Definition offset_config : Config :=
  mkConfig "stepper_bed" offset_rail_x sample_rail_z 300 3000 25 100.

(** From (200000, 0) to (-200000, 0), through the centre. *)
Definition far_move : Move :=
  mkMove (mkCoord 200000 0 0 0) (mkCoord (-200000) 0 0 0)
         (mkCoord (-400000) 0 0 0) 400000.

(** From (-1, 0) to (1, 0), through the centre. *)
Definition through_move : Move :=
  mkMove (mkCoord (-1) 0 0 0) (mkCoord 1 0 0 0) (mkCoord 2 0 0 0) 2.

(** Extrusion alone: no displacement on the first three axes. *)
Definition extrude_move : Move :=
  mkMove (mkCoord 3 4 5 0) (mkCoord 3 4 5 2) (mkCoord 0 0 0 2) 2.

(** From (3, 0, 0) to (3, 4, 400), above the second rail's range. *)
Definition overshoot_move : Move :=
  mkMove (mkCoord 3 0 0 0) (mkCoord 3 4 400 0) (mkCoord 0 4 400 0)
         (4 * sqrt 10001).

(** The two planar axes named in two separate calls. *)
Definition split_history : list event :=
  [SetPosition origin [0%nat]; SetPosition origin [1%nat]].

(** Everything homed in one call. *)
Definition homed_history : list event :=
  [SetPosition origin [0; 1; 2]%nat].

(** ** Comparison lemmas *)

Lemma ltb_true a b : Py.ltb a b = true <-> a < b.
Proof. unfold Py.ltb; destruct (Rlt_dec a b); split; intros; auto; discriminate || lra. Qed.

Lemma ltb_false a b : Py.ltb a b = false <-> b <= a.
Proof. unfold Py.ltb; destruct (Rlt_dec a b); split; intros; auto; discriminate || lra. Qed.

Lemma leb_true a b : Py.leb a b = true <-> a <= b.
Proof. unfold Py.leb; destruct (Rle_dec a b); split; intros; auto; discriminate || lra. Qed.

Lemma leb_false a b : Py.leb a b = false <-> b < a.
Proof. unfold Py.leb; destruct (Rle_dec a b); split; intros; auto; discriminate || lra. Qed.

Lemma eqb_true a b : Py.eqb a b = true <-> a = b.
Proof. unfold Py.eqb; destruct (Req_dec_T a b); split; intros; auto; discriminate || lra. Qed.

Lemma eqb_false a b : Py.eqb a b = false <-> a <> b.
Proof. unfold Py.eqb; destruct (Req_dec_T a b); split; intros; auto; discriminate || lra. Qed.

Lemma truthy_true a : Py.truthy a = true <-> a <> 0.
Proof. unfold Py.truthy; rewrite negb_true_iff; apply eqb_false. Qed.

Lemma truthy_false a : Py.truthy a = false <-> a = 0.
Proof. unfold Py.truthy; rewrite negb_false_iff; apply eqb_true. Qed.

Lemma sqrdistance_sym p q : sqrdistance p q = sqrdistance q p.
Proof. unfold sqrdistance; ring. Qed.

Lemma sqrdistance_nonneg p q : 0 <= sqrdistance p q.
Proof. unfold sqrdistance; apply Rplus_le_le_0_compat; apply pow2_ge_0. Qed.

Lemma distance_sqrt p q : distance p q = sqrt (sqrdistance p q).
Proof. reflexivity. Qed.

(** C9.  [crosses_point] is symmetric in the two end points of the segment:
    [crosses_point(p, a, b) == crosses_point(p, b, a)] for all points. *)
Theorem crosses_point_sym (p a b : point) :
  crosses_point p a b = crosses_point p b a.
Proof.
  unfold crosses_point.
  rewrite (sqrdistance_sym b a).
  apply andb_comm.
Qed.

(** ** Numbers *)

Lemma PI_gt_31415 : 3.1415 < PI.
Proof.
  pose proof (PI_2_3_7_ineq 2) as [H _].
  unfold sum_f_R0, tg_alt, PI_2_3_7_tg, Ratan_seq in H.
  simpl in H.
  lra.
Qed.

Lemma sqrt_pow2_abs a : sqrt (a ^ 2) = Rabs a.
Proof.
  replace (a ^ 2) with (Rsqr a) by (unfold Rsqr; ring).
  apply sqrt_Rsqr_abs.
Qed.

Lemma distance_same_fst a y1 y2 : distance (a, y1) (a, y2) = Rabs (y2 - y1).
Proof.
  unfold distance; cbn [fst snd].
  replace ((a - a) ^ 2 + (y2 - y1) ^ 2) with ((y2 - y1) ^ 2) by ring.
  apply sqrt_pow2_abs.
Qed.

Lemma distance_same_snd x1 x2 b : distance (x1, b) (x2, b) = Rabs (x2 - x1).
Proof.
  unfold distance; cbn [fst snd].
  replace ((x2 - x1) ^ 2 + (b - b) ^ 2) with ((x2 - x1) ^ 2) by ring.
  apply sqrt_pow2_abs.
Qed.

Lemma distance_nonneg p q : 0 <= distance p q.
Proof. apply sqrt_pos. Qed.

Lemma bed_radius_abs (k : Kin) : bed_radius k = Rabs (position_max (rail_x k)).
Proof.
  unfold bed_radius, bed_center, axes_min, get_range; cbn [fst snd cx].
  rewrite distance_same_fst.
  replace (- position_max (rail_x k) - 0) with (- position_max (rail_x k)) by ring.
  apply Rabs_Ropp.
Qed.

Lemma bed_radius_pos (k : Kin) :
  0 < position_max (rail_x k) -> bed_radius k = position_max (rail_x k).
Proof. intros H; rewrite bed_radius_abs; apply Rabs_pos_eq; lra. Qed.

Lemma bed_radius_nonzero (k : Kin) :
  position_max (rail_x k) <> 0 -> bed_radius k <> 0.
Proof. intros H; rewrite bed_radius_abs; apply Rabs_no_R0; exact H. Qed.

(** ** check_move *)

Ltac to_prop :=
  repeat match goal with
  | H : Py.ltb _ _ = true |- _ => apply ltb_true in H
  | H : Py.ltb _ _ = false |- _ => apply ltb_false in H
  | H : Py.gtb _ _ = true |- _ => unfold Py.gtb in H
  | H : Py.gtb _ _ = false |- _ => unfold Py.gtb in H
  | H : Py.leb _ _ = true |- _ => apply leb_true in H
  | H : Py.leb _ _ = false |- _ => apply leb_false in H
  | H : Py.eqb _ _ = true |- _ => apply eqb_true in H
  | H : Py.eqb _ _ = false |- _ => apply eqb_false in H
  | H : Py.truthy _ = true |- _ => apply truthy_true in H
  | H : Py.truthy _ = false |- _ => apply truthy_false in H
  | H : (_ || _)%bool = true |- _ => apply orb_true_iff in H; destruct H
  | H : (_ || _)%bool = false |- _ => apply orb_false_iff in H; destruct H
  | H : (_ && _)%bool = true |- _ => apply andb_true_iff in H; destruct H
  | H : (_ && _)%bool = false |- _ => apply andb_false_iff in H; destruct H
  end.

Ltac split_ifs :=
  repeat match goal with
  | |- context [if ?b then _ else _] => destruct b eqn:?
  end.

Ltac run_check_move :=
  unfold check_move, Py.when, Py.bind, Py.div, Py.raise, Py.ret, Py.emit,
    Py.calls, Py.outcome;
  split_ifs; to_prop; cbn [fst snd app].

Lemma sq_sum_nonneg a b : 0 <= a ^ 2 + b ^ 2.
Proof. apply Rplus_le_le_0_compat; apply pow2_ge_0. Qed.

(** C10.  While the planar limit is unhomed ([limit_xy2 < 0]) [check_move]
    rejects every move, whatever its displacement and destination, with
    "Must home axis first", and sets no limit on it. *)
Theorem check_move_unhomed_rejects_all (k : Kin) (move : Move) :
  limit_xy2 k < 0 ->
  check_move k move = ([], Py.Raise (Py.MoveError (Some must_home))).
Proof.
  intros Hneg.
  pose proof (sq_sum_nonneg (cx (end_pos move)) (cy (end_pos move))) as Hsq.
  run_check_move; try reflexivity; exfalso; lra.
Qed.

(** C3 (amended).  With a radial rail of nonzero maximum travel,
    [check_move] fails in these cases and no other: the destination lies
    beyond the radius limit ("Must home axis first" when the limit is
    negative, the default move error otherwise); or, that check passed, the
    move has a vertical displacement and its destination Z lies outside
    [limit_z] ("Must home axis first" when the window is inverted, the
    default move error otherwise). *)
Theorem check_move_errors (k : Kin) (move : Move) :
  position_max (rail_x k) <> 0 ->
  check_move_errors_claim k move.
Proof.
  intros Hmax.
  pose proof (bed_radius_nonzero k Hmax) as Hbed.
  pose proof (Rabs_no_R0 (cz (axes_d move))) as Habs.
  unfold check_move_errors_claim, unhomed_or_range, radius_exceeded, z_outside.
  run_check_move.
  all: repeat split; intros; try reflexivity; try tauto; try (exfalso; lra).
Qed.

(** C1 (amended).  For a radial rail of positive maximum travel and every
    move with a planar displacement whose destination passes the radius
    check, the first limit [check_move] sets is
    [limit_speed(max_rotational_accel, max_rotational_velocity * scale)]
    with [scale = 2 * pi * min(start_radius, end_radius) / bed_radius],
    where pi is [math.pi] (the local [3.1415] is not read), [bed_radius] is
    the rail's maximum travel and the radii are the distances of the end
    points from the centre. *)
Theorem rotational_limit_set (k : Kin) (move : Move) :
  0 < position_max (rail_x k) ->
  planar_displacement move ->
  ~ radius_exceeded k move ->
  hd_error (Py.calls (check_move k move))
  = Some (rotational_limit math_pi k move).
Proof.
  intros Hmax Hplanar Hradius.
  pose proof (bed_radius_pos k Hmax) as Hbed.
  unfold planar_displacement, radius_exceeded in *.
  unfold rotational_limit.
  run_check_move; try (exfalso; lra); try (exfalso; tauto).
  all: cbn [hd_error]; do 2 f_equal; rewrite Hbed; unfold bed_center; field; lra.
Qed.

(** C6.  For every move with a vertical displacement that reaches the
    vertical step of [check_move] (radius check passed, rotational step
    done) and whose destination Z lies inside [limit_z], the last limit set
    is [limit_speed(max_z_velocity * z_ratio, max_z_accel * z_ratio)] with
    [z_ratio = move_d / abs(axes_d[2])]; the divisor is not zero and
    [check_move] returns normally. *)
Theorem vertical_limit_set (k : Kin) (move : Move) :
  cz (axes_d move) <> 0 ->
  fst (limit_z k) <= cz (end_pos move) <= snd (limit_z k) ->
  ~ radius_exceeded k move ->
  (planar_displacement move -> position_max (rail_x k) <> 0) ->
  Rabs (cz (axes_d move)) <> 0
  /\ exists before,
       check_move k move = (before ++ [vertical_limit k move], Py.Ok tt).
Proof.
  intros Hdz Hwin Hradius Hbed.
  pose proof (Rabs_no_R0 _ Hdz) as Habs.
  split; [exact Habs|].
  unfold planar_displacement, radius_exceeded, vertical_limit in *.
  pose proof (bed_radius_nonzero k) as Hnz.
  run_check_move; try (exfalso; lra); try (exfalso; tauto).
  all: try (exists []; reflexivity).
  all: eexists [_]; reflexivity.
Qed.

(** ** check_move on the samples *)

Lemma sample_homed_limits :
  limit_xy2 sample_homed = 200 ^ 2 /\ limit_z sample_homed = (0, 300).
Proof. split; reflexivity. Qed.

Lemma zero_homed_limits :
  limit_xy2 zero_homed = 0 ^ 2 /\ limit_z zero_homed = (0, 300).
Proof. split; reflexivity. Qed.

Lemma check_move_unhomed_rejects_all_witness :
  check_move (init sample_config) lift_move
  = ([], Py.Raise (Py.MoveError (Some must_home))).
Proof.
  apply check_move_unhomed_rejects_all.
  simpl. lra.
Defined.

Lemma check_move_zero_rail_divides :
  check_move zero_homed inward_move = ([], Py.Raise Py.ZeroDivisionError).
Proof.
  pose proof (bed_radius_abs zero_homed) as Hbed.
  change (position_max (rail_x zero_homed)) with 0 in Hbed.
  rewrite Rabs_R0 in Hbed.
  unfold check_move, Py.when, Py.bind, Py.div.
  rewrite Hbed.
  replace (Py.gtb _ _) with false
    by (symmetry; apply ltb_false; simpl; lra).
  replace (Py.truthy (cx (axes_d inward_move))) with true
    by (symmetry; apply truthy_true; simpl; lra).
  replace (Py.eqb 0 0) with true by (symmetry; apply eqb_true; reflexivity).
  reflexivity.
Qed.

(* With a radial rail whose maximum travel is zero, a planar move to the
   centre passes both checks and [check_move] still fails, on the division
   by [bed_radius]. *)
Lemma check_move_errors_counterexample :
  ~ check_move_errors_claim zero_homed inward_move.
Proof.
  intros (_ & _ & H).
  unfold Py.outcome in H.
  rewrite check_move_zero_rail_divides in H.
  cut (@Py.Raise unit Py.ZeroDivisionError = Py.Ok tt); [discriminate|].
  apply H.
  - unfold radius_exceeded; simpl; lra.
  - unfold z_outside; simpl; intros [Hz _]; apply Hz; reflexivity.
Qed.

Lemma check_move_errors_witness :
  position_max (rail_x sample_homed) <> 0
  /\ Py.outcome (check_move sample_homed rising_move) = Py.Ok tt.
Proof.
  assert (H : position_max (rail_x sample_homed) <> 0) by (simpl; lra).
  split; [exact H|].
  apply (check_move_errors sample_homed rising_move H).
  - unfold radius_exceeded; simpl; lra.
  - unfold z_outside; simpl; lra.
Defined.

Lemma check_move_first_call (k : Kin) (move : Move) :
  planar_displacement move -> ~ radius_exceeded k move -> bed_radius k <> 0 ->
  hd_error (Py.calls (check_move k move))
  = Some (limit_speed (max_rotational_accel k)
            (max_rotational_velocity k
             * (2 * math_pi
                * (Rmin (distance bed_center (xy (start_pos move)))
                        (distance bed_center (xy (end_pos move)))
                   / bed_radius k)))).
Proof.
  intros Hplanar Hradius Hbed.
  unfold planar_displacement, radius_exceeded in *.
  run_check_move; try (exfalso; lra); try (exfalso; tauto); reflexivity.
Qed.

Lemma rim_move_radii :
  distance (0, 0) (xy (start_pos rim_move)) = 200
  /\ distance (0, 0) (xy (end_pos rim_move)) = 200.
Proof.
  unfold rim_move, xy; cbn [start_pos end_pos cx cy].
  rewrite distance_same_snd, distance_same_fst.
  replace (200 - 0) with 200 by ring.
  split; apply Rabs_pos_eq; lra.
Qed.

(* On the rim of the sample bed the scale is [2 * math.pi], and
   [300 * (2 * math.pi)] is not [300 * (2 * 3.1415)]. *)
Lemma rotational_limit_counterexample :
  ~ rotational_limit_claim 3.1415 sample_homed rim_move.
Proof.
  intros H.
  assert (Hplanar : planar_displacement rim_move) by (left; simpl; lra).
  assert (Hradius : ~ radius_exceeded sample_homed rim_move)
    by (unfold radius_exceeded; simpl; lra).
  specialize (H Hplanar Hradius).
  assert (Hbed : bed_radius sample_homed = 200)
    by (apply (bed_radius_pos sample_homed); simpl; lra).
  rewrite (check_move_first_call sample_homed rim_move Hplanar Hradius) in H
    by (rewrite Hbed; lra).
  unfold rotational_limit, bed_center in H.
  destruct rim_move_radii as [Hs He].
  rewrite Hbed, Hs, He in H.
  injection H as H.
  unfold Rmin in H; destruct (Rle_dec 200 200); [|lra].
  simpl in H.
  pose proof PI_gt_31415.
  unfold math_pi in H.
  lra.
Qed.

Lemma rotational_limit_set_witness :
  0 < position_max (rail_x sample_homed)
  /\ hd_error (Py.calls (check_move sample_homed rim_move))
     = Some (rotational_limit math_pi sample_homed rim_move).
Proof.
  assert (H : 0 < position_max (rail_x sample_homed)) by (simpl; lra).
  split; [exact H|].
  apply (rotational_limit_set sample_homed rim_move H).
  - left; simpl; lra.
  - unfold radius_exceeded; simpl; lra.
Defined.

Lemma vertical_limit_set_witness :
  Rabs (cz (axes_d rising_move)) <> 0
  /\ exists before,
       check_move sample_homed rising_move
       = (before ++ [vertical_limit sample_homed rising_move], Py.Ok tt).
Proof.
  apply (vertical_limit_set sample_homed rising_move).
  - simpl; lra.
  - simpl; lra.
  - unfold radius_exceeded; simpl; lra.
  - intros _; simpl; lra.
Defined.

(** A move with planar and vertical displacement gets both limits, the
    rotational one first.  The two calls differ in the order of their
    arguments: acceleration then velocity for the rotation, velocity then
    acceleration for the vertical axis. *)
Lemma check_move_both_limits (k : Kin) (move : Move) :
  planar_displacement move -> cz (axes_d move) <> 0 ->
  ~ radius_exceeded k move ->
  fst (limit_z k) <= cz (end_pos move) <= snd (limit_z k) ->
  0 < position_max (rail_x k) ->
  check_move k move
  = ([rotational_limit math_pi k move; vertical_limit k move], Py.Ok tt).
Proof.
  intros Hplanar Hdz Hradius Hwin Hmax.
  pose proof (bed_radius_pos k Hmax) as Hbed.
  pose proof (Rabs_no_R0 _ Hdz) as Habs.
  unfold planar_displacement, radius_exceeded, rotational_limit, vertical_limit in *.
  run_check_move; try (exfalso; lra); try (exfalso; tauto).
  all: do 4 f_equal; rewrite Hbed; unfold bed_center; field; lra.
Qed.

(** ** calc_position *)

Lemma calc_position_unfold (k : Kin) (sp : list (string * R)) (theta r z : R) :
  lookup sp (stepper_bed_name k) = Some theta ->
  lookup sp (get_name (rail_x k)) = Some r ->
  lookup sp (get_name (rail_z k)) = Some z ->
  calc_position k sp
  = ([], Py.Ok [[0.5 * (cos theta * r - z); sin theta * r; 0.5 * (r + z)]]).
Proof.
  intros Hb Hx Hz.
  unfold calc_position, dict_get.
  rewrite Hb, Hx, Hz.
  reflexivity.
Qed.

(** C5.  For every angle [theta], radial position [r] and linear position
    [z] found under the three stepper names, [calc_position] returns the one
    point [x = 0.5 * (cos(theta) * r - z)], [y = sin(theta) * r],
    [z_cart = 0.5 * (r + z)]; at [theta = 0, r = 10, z = 2] this is
    [(4, 0, 6)] and at [theta = pi/2, r = 10, z = 0] it is [(0, 10, 5)]. *)
Theorem calc_position_formula (k : Kin) (sp : list (string * R)) (theta r z : R) :
  lookup sp (stepper_bed_name k) = Some theta ->
  lookup sp (get_name (rail_x k)) = Some r ->
  lookup sp (get_name (rail_z k)) = Some z ->
  calc_position k sp
  = ([], Py.Ok [[0.5 * (cos theta * r - z); sin theta * r; 0.5 * (r + z)]])
  /\ (theta = 0 -> r = 10 -> z = 2 ->
      calc_position k sp = ([], Py.Ok [[4; 0; 6]]))
  /\ (theta = PI / 2 -> r = 10 -> z = 0 ->
      calc_position k sp = ([], Py.Ok [[0; 10; 5]])).
Proof.
  intros Hb Hx Hz.
  pose proof (calc_position_unfold k sp theta r z Hb Hx Hz) as E.
  split; [exact E|].
  split; intros Ht Hr Hz'; rewrite E; subst theta r z.
  - rewrite cos_0, sin_0.
    repeat f_equal; lra.
  - rewrite cos_PI2, sin_PI2.
    repeat f_equal; lra.
Qed.

Lemma calc_position_formula_witness :
  calc_position (init sample_config) sample_positions
  = ([], Py.Ok [[4; 0; 6]]).
Proof.
  apply (calc_position_formula (init sample_config) sample_positions 0 10 2);
    reflexivity.
Defined.

(** ** The limits along the life of the object *)

Section History.

Variables (sel : list nat -> bool) (reset : event -> bool).

Lemma homed_since_nil : ~ homed_since sel reset [].
Proof.
  intros (pre & newpos & axes & post & E & _).
  destruct pre; discriminate E.
Qed.

Lemma homed_since_snoc (evs : list event) (ev : event) :
  homed_since sel reset (evs ++ [ev])
  <-> (exists newpos axes, ev = SetPosition newpos axes /\ sel axes = true)
      \/ (homed_since sel reset evs /\ reset ev = false).
Proof.
  split.
  - intros (pre & newpos & axes & post & E & Hsel & Hpost).
    destruct post as [|e post _] using rev_ind.
    + apply app_inj_tail in E as [_ ->].
      left; eauto.
    + change (pre ++ SetPosition newpos axes :: post ++ [e])
        with (pre ++ (SetPosition newpos axes :: post) ++ [e]) in E.
      rewrite app_assoc in E.
      apply app_inj_tail in E as [-> ->].
      rewrite forallb_app in Hpost.
      apply andb_true_iff in Hpost as [Hpost He].
      cbn in He. rewrite andb_true_r in He. apply negb_true_iff in He.
      right; split; [|exact He].
      exists pre, newpos, axes, post; auto.
  - intros [(newpos & axes & -> & Hsel) | [(pre & newpos & axes & post & -> & Hsel & Hpost) Hev]].
    + exists evs, newpos, axes, []; auto.
    + exists pre, newpos, axes, (post ++ [ev]).
      rewrite <- app_assoc; cbn [app].
      repeat split; auto.
      rewrite forallb_app, Hpost; cbn; rewrite Hev; reflexivity.
Qed.

End History.

Lemma run_snoc (c : Config) (evs : list event) (ev : event) :
  run c (evs ++ [ev]) = step (run c evs) ev.
Proof. unfold run; rewrite fold_left_app; reflexivity. Qed.

Lemma run_config (c : Config) (evs : list event) : config (run c evs) = c.
Proof.
  induction evs as [|ev evs IH] using rev_ind; [reflexivity|].
  rewrite run_snoc.
  destruct ev as [newpos axes| |t]; cbn [step]; try exact IH.
  unfold set_position.
  destruct (Py.contains 2 axes), (Py.contains 0 axes && Py.contains 1 axes);
    exact IH.
Qed.

(** The planar limit is the sentinel or the square of the rail's maximum. *)
Lemma run_limit_xy2 (c : Config) (evs : list event) :
  (limit_xy2 (run c evs) = -1 /\ ~ xy_homed_since evs)
  \/ (limit_xy2 (run c evs) = position_max (rail_x c) ^ 2 /\ xy_homed_since evs).
Proof.
  unfold xy_homed_since.
  induction evs as [|ev evs IH] using rev_ind.
  - left; split; [reflexivity | apply homed_since_nil].
  - rewrite run_snoc, homed_since_snoc.
    pose proof (run_config c evs) as Hc.
    destruct ev as [newpos axes| |t]; cbn [step].
    + unfold set_position.
      destruct (Py.contains 0 axes && Py.contains 1 axes) eqn:Hsel.
      * right; split; [|left; eauto].
        destruct (Py.contains 2 axes); cbn; rewrite Hc; reflexivity.
      * assert (E : limit_xy2 (if Py.contains 2 axes
                               then mkKin (run c evs) (get_range (rail_z (run c evs)))
                                          (limit_xy2 (run c evs))
                               else run c evs) = limit_xy2 (run c evs))
          by (destruct (Py.contains 2 axes); reflexivity).
        rewrite E.
        destruct IH as [[IH1 IH2] | [IH1 IH2]]; [left | right]; split; auto.
        intros [(p & a & Heq & Ha) | [H _]]; [|tauto].
        injection Heq as _ <-; congruence.
    + destruct IH as [[IH1 IH2] | [IH1 IH2]]; [left | right]; split; auto.
      intros [(p & a & Heq & _) | [H _]]; [discriminate | tauto].
    + left; split; [reflexivity|].
      intros [(p & a & Heq & _) | [_ H]]; discriminate.
Qed.

(** The vertical window is the sentinel or the range of the second rail. *)
Lemma run_limit_z (c : Config) (evs : list event) :
  (limit_z (run c evs) = (1, -1) /\ ~ z_homed_since evs)
  \/ (limit_z (run c evs) = get_range (rail_z c) /\ z_homed_since evs).
Proof.
  unfold z_homed_since.
  induction evs as [|ev evs IH] using rev_ind.
  - left; split; [reflexivity | apply homed_since_nil].
  - rewrite run_snoc, homed_since_snoc.
    pose proof (run_config c evs) as Hc.
    destruct ev as [newpos axes| |t]; cbn [step].
    + unfold set_position.
      destruct (Py.contains 2 axes) eqn:Hsel.
      * right; split; [|left; eauto].
        destruct (Py.contains 0 axes && Py.contains 1 axes); cbn; rewrite Hc;
          reflexivity.
      * assert (E : limit_z (if Py.contains 0 axes && Py.contains 1 axes
                             then mkKin (run c evs) (limit_z (run c evs))
                                        (snd (get_range (rail_x (run c evs))) ^ 2)
                             else run c evs) = limit_z (run c evs))
          by (destruct (Py.contains 0 axes && Py.contains 1 axes); reflexivity).
        rewrite E.
        destruct IH as [[IH1 IH2] | [IH1 IH2]]; [left | right]; split; auto.
        intros [(p & a & Heq & Ha) | [H _]]; [|tauto].
        injection Heq as _ <-; congruence.
    + left; split; [reflexivity|].
      intros [(p & a & Heq & _) | [_ H]]; discriminate.
    + left; split; [reflexivity|].
      intros [(p & a & Heq & _) | [_ H]]; discriminate.
Qed.

(** C4.  In every state reached from construction by [set_position],
    [note_z_not_homed] and the motor-off notification, with a second rail
    whose range is not inverted: [limit_xy2 >= 0] iff a [set_position]
    naming both planar axes has occurred with no motor-off since, and
    [limit_z[0] <= limit_z[1]] iff a [set_position] naming the Z axis has
    occurred with no motor-off or [note_z_not_homed] since; the motor-off
    notification puts both limits at their sentinels from any state. *)
Theorem limits_track_homing (c : Config) (evs : list event) :
  position_min (rail_z c) <= position_max (rail_z c) ->
  (0 <= limit_xy2 (run c evs) <-> xy_homed_since evs)
  /\ (fst (limit_z (run c evs)) <= snd (limit_z (run c evs)) <-> z_homed_since evs)
  /\ (forall (k : Kin) (t : R),
        limit_xy2 (_motor_off k t) = -1 /\ limit_z (_motor_off k t) = (1, -1)).
Proof.
  intros Hrange.
  split; [|split].
  - destruct (run_limit_xy2 c evs) as [[E H] | [E H]]; rewrite E.
    + split; [lra | tauto].
    + split; [tauto | intros _; apply pow2_ge_0].
  - destruct (run_limit_z c evs) as [[E H] | [E H]]; rewrite E; cbn [fst snd get_range].
    + split; [lra | tauto].
    + split; [tauto | intros _; exact Hrange].
  - intros k t; split; reflexivity.
Qed.

Lemma limits_track_homing_witness :
  position_min (rail_z sample_config) <= position_max (rail_z sample_config)
  /\ (0 <= limit_xy2 (run sample_config sample_history)
      <-> xy_homed_since sample_history)
  /\ (fst (limit_z (run sample_config sample_history))
      <= snd (limit_z (run sample_config sample_history))
      <-> z_homed_since sample_history).
Proof.
  assert (H : position_min (rail_z sample_config)
              <= position_max (rail_z sample_config)) by (simpl; lra).
  destruct (limits_track_homing sample_config sample_history H) as (Hxy & Hz & _).
  split; [exact H | split; [exact Hxy | exact Hz]].
Defined.

(** ** Homing *)

Lemma home_axis_calls (axis : nat) (rail : Rail) :
  (axis < 4)%nat ->
  _home_axis axis rail
  = ([home_rails [rail]
        (Py.update
           (if Nat.eqb axis 0 then [None; Some 0; None; None]
            else [None; None; None; None])
           axis (Some (force_offset rail 1 (homing_travel rail))))
        (Py.update
           (if Nat.eqb axis 0 then [None; Some 0; None; None]
            else [None; None; None; None])
           axis (Some (position_endstop rail)))],
     Py.Ok tt).
Proof.
  intros Haxis.
  assert (Hf : force_offset rail 1 (homing_travel rail)
               = if positive_dir rail
                 then position_endstop rail
                      - (position_endstop rail - position_min rail)
                 else position_endstop rail
                      + (position_max rail - position_endstop rail)).
  { unfold force_offset, homing_travel; destruct (positive_dir rail); ring. }
  rewrite Hf; clear Hf.
  unfold _home_axis, get_range.
  destruct axis as [|[|[|[|axis]]]]; [| | | |lia];
    destruct (positive_dir rail); reflexivity.
Qed.

(** C7 (amended).  When either planar axis is requested, [home] reports the
    requested axes with both planar axes put in, and then hands the radial
    rail to [home_rails] twice: once for axis 0 (home position: the end
    stop on axis 0 and zero on axis 1) and once for axis 1 (home position:
    the end stop on axis 1); the move of the second rail for axis 2 follows
    when that axis is requested. *)
Theorem home_planar_moves (k : Kin) (homing_axes : list nat) :
  Py.contains 0 homing_axes || Py.contains 1 homing_axes = true ->
  let rx := rail_x k in
  let rz := rail_z k in
  let fx := force_offset rx 1 (homing_travel rx) in
  let fz := force_offset rz 1 (homing_travel rz) in
  home k homing_axes
  = (set_axes (normalized_axes homing_axes)
     :: home_rails [rx] [Some fx; Some 0; None; None]
                        [Some (position_endstop rx); Some 0; None; None]
     :: home_rails [rx] [None; Some fx; None; None]
                        [None; Some (position_endstop rx); None; None]
     :: (if Py.contains 2 homing_axes
         then [home_rails [rz] [None; None; Some fz; None]
                               [None; None; Some (position_endstop rz); None]]
         else []),
     Py.Ok tt).
Proof.
  intros Hxy rx rz fx fz.
  unfold home, normalized_axes.
  rewrite Hxy.
  unfold Py.when.
  rewrite !home_axis_calls by lia.
  destruct (Py.contains 2 homing_axes); reflexivity.
Qed.

Lemma home_planar_moves_witness :
  Py.calls (home sample_homed [0%nat])
  = [set_axes [0; 1]%nat;
     home_rails [sample_rail_x] [Some (0 + 1 * (200 - 0)); Some 0; None; None]
                                [Some 0; Some 0; None; None];
     home_rails [sample_rail_x] [None; Some (0 + 1 * (200 - 0)); None; None]
                                [None; Some 0; None; None]].
Proof.
  rewrite (home_planar_moves sample_homed [0%nat]) by reflexivity.
  reflexivity.
Defined.

(* Asked for axis 0 alone, [home] makes two [home_rails] calls. *)
Lemma home_single_move_counterexample :
  ~ home_single_move_claim sample_homed [0%nat].
Proof.
  intros H.
  destruct (H eq_refl) as (planar & E & Hcount).
  unfold home, Py.when in E.
  cbn [Py.contains existsb Nat.eqb orb] in E.
  rewrite !home_axis_calls in E by lia.
  cbn in E.
  injection E as <-.
  cbn in Hcount.
  discriminate Hcount.
Qed.

Lemma home2_axis_calls (k : Kin) (axis : nat) (rail : Rail) :
  nth_error (rails k) axis = Some rail ->
  home2_axis k axis
  = ([home_rails [rail]
        (Py.update [None; None; None; None] axis
           (Some (force_offset rail 1.5 (homing_travel rail))))
        (Py.update [None; None; None; None] axis
           (Some (position_endstop rail)))],
     Py.Ok tt).
Proof.
  intros Hrail.
  unfold home2_axis, Py.getitem, Py.when.
  rewrite Hrail.
  unfold force_offset, homing_travel, get_range.
  destruct axis as [|[|axis]].
  - cbn [Nat.eqb Py.bind Py.ret]; destruct (positive_dir rail); reflexivity.
  - cbn [Nat.eqb Py.bind Py.ret]; destruct (positive_dir rail); reflexivity.
  - destruct axis; discriminate Hrail.
Qed.

(** With two rails, an axis from 2 on has no rail. *)
Lemma home2_axis_out_of_range (k : Kin) (axis : nat) :
  (2 <= axis)%nat ->
  home2_axis k axis = ([], Py.Raise Py.IndexError).
Proof.
  intros Haxis.
  unfold home2_axis, Py.getitem, Py.when.
  destruct axis as [|[|axis]]; [lia | lia |].
  destruct axis; reflexivity.
Qed.

(** Asked for the vertical axis, [home2] stops on [self.rails[2]] before any
    homing move. *)
Lemma home2_vertical_axis_fails (k : Kin) :
  home2 k [2%nat] = ([], Py.Raise Py.IndexError).
Proof.
  unfold home2; cbn [home2_loop].
  rewrite home2_axis_out_of_range by lia.
  reflexivity.
Qed.

Lemma home2_call_holds (k : Kin) (axis : nat) (rail : Rail) :
  nth_error (rails k) axis = Some rail ->
  home2_call homing_travel axis
    (home_rails [rail]
       (Py.update [None; None; None; None] axis
          (Some (force_offset rail 1.5 (homing_travel rail))))
       (Py.update [None; None; None; None] axis
          (Some (position_endstop rail)))).
Proof.
  intros Hrail.
  exists rail; do 2 eexists; split; [reflexivity|].
  destruct axis as [|[|axis]]; [split; reflexivity | split; reflexivity |].
  destruct axis; discriminate Hrail.
Qed.

(** C8 (amended).  For every list of requested axes among 0 and 1, [home2]
    makes one [home_rails] call per requested axis, in the order given,
    axis 1 included (the test on axis 1 changes nothing); each call takes
    the end stop as home position and forces the position 1.5 times the
    travel between the end stop and the far end of the rail's range away
    from it, on the side the homing move starts from. *)
Theorem home2_planar_axes (k : Kin) (homing_axes : list nat) :
  Forall (fun axis => (axis < 2)%nat) homing_axes ->
  home2_claim homing_travel k homing_axes.
Proof.
  unfold home2_claim, home2.
  induction 1 as [|axis rest Haxis _ IH].
  - exists []; split; [reflexivity | constructor].
  - destruct IH as (cs & E & Hcs).
    assert (Hrail : exists rail, nth_error (rails k) axis = Some rail).
    { destruct axis as [|[|axis]]; [eexists; reflexivity .. | lia]. }
    destruct Hrail as [rail Hrail].
    eexists (_ :: cs); split.
    + cbn [home2_loop].
      rewrite (home2_axis_calls k axis rail Hrail), E.
      reflexivity.
    + constructor; [apply (home2_call_holds k axis rail Hrail) | exact Hcs].
Qed.

Lemma home2_planar_axes_witness :
  home2_claim homing_travel sample_homed [1; 0]%nat.
Proof.
  apply (home2_planar_axes sample_homed [1; 0]%nat).
  repeat constructor.
Defined.

(* The end stop of [offset_rail_x] is 5 away from the lower end of its range:
   the force position is [1.5 * 200] away from the end stop, not
   [1.5 * 205].  And a request for axis 2 ends in an [IndexError]. *)
Lemma home2_counterexample :
  ~ home2_claim rail_range (init offset_config) [0%nat]
  /\ ~ home2_claim rail_range (init offset_config) [2%nat].
Proof.
  split.
  - intros (cs & E & Hcs).
    unfold home2 in E; cbn [home2_loop] in E.
    rewrite (home2_axis_calls (init offset_config) 0 offset_rail_x eq_refl) in E.
    cbn in E.
    injection E as <-.
    inversion Hcs as [|a c l l' Hcall _]; subst.
    destruct Hcall as (rail & forcepos & homepos & Hc & _ & Hf).
    injection Hc as <- <- <-.
    cbn in Hf.
    injection Hf as Hf.
    unfold force_offset, rail_range in Hf; cbn in Hf.
    lra.
  - intros (cs & E & _).
    rewrite home2_vertical_axis_fails in E.
    discriminate E.
Qed.

(** ** segment_move *)

Lemma move_options_candidates (move : Move) (c : point) :
  In c (move_options move)
  <-> In c (detour_candidates (xy (start_pos move)) (xy (end_pos move))).
Proof.
  unfold move_options, detour_candidates, xy; cbn [fst snd].
  destruct (Py.eqb (cx (start_pos move)) 0 && Py.eqb (cx (end_pos move)) 0);
    [tauto|].
  destruct (Py.eqb (cy (start_pos move)) 0 && Py.eqb (cy (end_pos move)) 0);
    [tauto|].
  cbn [In]; tauto.
Qed.

Lemma nearest_move_options (move : Move) (p v : point) :
  nearest (move_options move) p v
  <-> nearest (detour_candidates (xy (start_pos move)) (xy (end_pos move))) p v.
Proof.
  unfold nearest.
  rewrite move_options_candidates.
  split; intros [Hin Hmin]; (split; [exact Hin|]); intros c Hc; apply Hmin;
    apply move_options_candidates; exact Hc.
Qed.

Lemma found_nearest_init (p : point) : found_nearest p [] 100000 None.
Proof. left; repeat split; intros c []. Qed.

(** One more candidate [c], taken when strictly nearer than the best so far. *)
Lemma found_nearest_snoc (p : point) (l : list point) (d : R) (o : option point)
    (c : point) :
  found_nearest p l d o ->
  found_nearest p (l ++ [c])
    (if Py.ltb (distance c p) d then distance c p else d)
    (if Py.ltb (distance c p) d then Some c else o).
Proof.
  intros [(-> & -> & Hfar) | (v & -> & -> & Hlt & Hin & Hmin)];
    destruct (Py.ltb (distance c p) _) eqn:Hcmp; to_prop.
  - right; exists c; repeat split; auto.
    + apply in_or_app; right; left; reflexivity.
    + intros c' Hc'; apply in_app_or in Hc' as [Hc' | [<- | []]]; [|lra].
      specialize (Hfar c' Hc'); lra.
  - left; repeat split; auto.
    intros c' Hc'; apply in_app_or in Hc' as [Hc' | [<- | []]]; auto.
  - right; exists c; repeat split; auto.
    + lra.
    + apply in_or_app; right; left; reflexivity.
    + intros c' Hc'; apply in_app_or in Hc' as [Hc' | [<- | []]]; [|lra].
      specialize (Hmin c' Hc'); lra.
  - right; exists v; repeat split; auto.
    + apply in_or_app; left; exact Hin.
    + intros c' Hc'; apply in_app_or in Hc' as [Hc' | [<- | []]]; auto.
Qed.

Lemma closest_loop_invariant (move : Move) (l : list point) :
  let st := fold_left (closest_step move) l (mkClosest 100000 100000 None None) in
  found_nearest (xy (start_pos move)) l (closest_to_start st) (closest_start_pos st)
  /\ found_nearest (xy (end_pos move)) l (closest_to_end st) (closest_end_pos st).
Proof.
  induction l as [|c l IH] using rev_ind.
  - split; apply found_nearest_init.
  - cbv zeta in *.
    rewrite fold_left_app; cbn [fold_left].
    destruct IH as [IHs IHe].
    set (st := fold_left (closest_step move) l _) in *.
    split.
    + apply (found_nearest_snoc _ _ _ _ c) in IHs.
      unfold closest_step.
      destruct (Py.ltb (distance c (xy (end_pos move))) (closest_to_end st));
        cbn [closest_to_start closest_start_pos] in *;
        destruct (Py.ltb (distance c (xy (start_pos move))) (closest_to_start st));
        exact IHs.
    + apply (found_nearest_snoc _ _ _ _ c) in IHe.
      unfold closest_step.
      destruct (Py.ltb (distance c (xy (end_pos move))) (closest_to_end st));
        cbn [closest_to_start closest_start_pos closest_to_end closest_end_pos] in *;
        destruct (Py.ltb (distance c (xy (start_pos move))) (closest_to_start st));
        exact IHe.
Qed.

Lemma found_nearest_within_reach (p : point) (l : list point) (d : R)
    (o : option point) :
  found_nearest p l d o -> within_reach l p ->
  exists v, o = Some v /\ nearest l p v.
Proof.
  intros [(_ & _ & Hfar) | (v & -> & _ & _ & Hn)] (c & Hc & Hlt).
  - specialize (Hfar c Hc); lra.
  - exists v; auto.
Qed.

Lemma found_nearest_out_of_reach (p : point) (l : list point) (d : R)
    (o : option point) :
  found_nearest p l d o -> (forall c, In c l -> 100000 <= distance c p) ->
  o = None.
Proof.
  intros [(-> & _) | (v & -> & -> & Hlt & Hin & _)] Hfar; [reflexivity|].
  specialize (Hfar v Hin); lra.
Qed.

Lemma segment_move_not_crossing (k : Kin) (move : Move) :
  crosses_point (0, 0) (xy (start_pos move)) (xy (end_pos move)) = false ->
  segment_move k move = None.
Proof. intros H; unfold segment_move; rewrite H; reflexivity. Qed.

Lemma segment_move_crossing (k : Kin) (move : Move) :
  let s := xy (start_pos move) in
  let e := xy (end_pos move) in
  crosses_point (0, 0) s e = true ->
  within_reach (detour_candidates s e) s ->
  within_reach (detour_candidates s e) e ->
  exists via_start via_end,
    nearest (detour_candidates s e) s via_start
    /\ nearest (detour_candidates s e) e via_end
    /\ segment_move k move =
       Some [(Pos (start_pos move), Opt via_start);
             (Opt via_start, Opt via_end);
             (Opt via_end, Pos (end_pos move))].
Proof.
  intros s e Hcross Hs He.
  destruct (closest_loop_invariant move (move_options move)) as [Is Ie].
  assert (Hs' : within_reach (move_options move) s).
  { destruct Hs as (c & Hc & Hlt); exists c; split; [|exact Hlt].
    apply move_options_candidates; exact Hc. }
  assert (He' : within_reach (move_options move) e).
  { destruct He as (c & Hc & Hlt); exists c; split; [|exact Hlt].
    apply move_options_candidates; exact Hc. }
  destruct (found_nearest_within_reach _ _ _ _ Is Hs') as (vs & Evs & Hvs).
  destruct (found_nearest_within_reach _ _ _ _ Ie He') as (ve & Eve & Hve).
  exists vs, ve.
  split; [apply nearest_move_options; exact Hvs|].
  split; [apply nearest_move_options; exact Hve|].
  unfold segment_move.
  fold s e; rewrite Hcross, Evs, Eve.
  reflexivity.
Qed.

Lemma Rabs_of_pos (a : R) : 0 <= a -> Rabs a = a.
Proof. apply Rabs_pos_eq. Qed.

Lemma Rabs_of_neg (a : R) : a <= 0 -> Rabs a = - a.
Proof. intros H; rewrite <- Rabs_Ropp; apply Rabs_pos_eq; lra. Qed.

Lemma detour_candidates_horizontal (a b : R) :
  a <> 0 ->
  detour_candidates (a, 0) (b, 0) = [(0.005, 0); (-0.005, 0)].
Proof.
  intros Ha.
  unfold detour_candidates; cbn [fst snd].
  replace (Py.eqb a 0) with false by (symmetry; apply eqb_false; exact Ha).
  replace (Py.eqb 0 0) with true by (symmetry; apply eqb_true; reflexivity).
  reflexivity.
Qed.

Lemma segment_move_through_centre (k : Kin) (move : Move) :
  xy (start_pos move) = (-1, 0) -> xy (end_pos move) = (1, 0) ->
  segment_move k move
  = Some [(Pos (start_pos move), Opt (-0.005, 0));
          (Opt (-0.005, 0), Opt (0.005, 0));
          (Opt (0.005, 0), Pos (end_pos move))].
Proof.
  intros Hs He.
  assert (Hcands : detour_candidates (-1, 0) (1, 0) = [(0.005, 0); (-0.005, 0)])
    by (apply detour_candidates_horizontal; lra).
  assert (D1 : distance (0.005, 0) (-1, 0) = 1.005)
    by (rewrite distance_same_snd, Rabs_of_neg; lra).
  assert (D2 : distance (-0.005, 0) (-1, 0) = 0.995)
    by (rewrite distance_same_snd, Rabs_of_neg; lra).
  assert (D3 : distance (0.005, 0) (1, 0) = 0.995)
    by (rewrite distance_same_snd, Rabs_of_pos; lra).
  assert (D4 : distance (-0.005, 0) (1, 0) = 1.005)
    by (rewrite distance_same_snd, Rabs_of_pos; lra).
  destruct (segment_move_crossing k move) as (vs & ve & Hvs & Hve & E).
  - rewrite Hs, He. unfold crosses_point, sqrdistance; cbn [fst snd].
    apply andb_true_iff; split; apply leb_true; lra.
  - rewrite Hs, He, Hcands.
    exists (0.005, 0); split; [left; reflexivity | rewrite D1; lra].
  - rewrite Hs, He, Hcands.
    exists (0.005, 0); split; [left; reflexivity | rewrite D3; lra].
  - rewrite Hs, He, Hcands in Hvs, Hve.
    destruct Hvs as [Hins Hmins], Hve as [Hine Hmine].
    assert (Evs : vs = (-0.005, 0)).
    { destruct Hins as [<- | [<- | []]]; [|reflexivity].
      specialize (Hmins (-0.005, 0) (or_intror (or_introl eq_refl))).
      rewrite D1, D2 in Hmins; lra. }
    assert (Eve : ve = (0.005, 0)).
    { destruct Hine as [<- | [<- | []]]; [reflexivity|].
      specialize (Hmine (0.005, 0) (or_introl eq_refl)).
      rewrite D3, D4 in Hmine; lra. }
    rewrite E, Evs, Eve; reflexivity.
Qed.

Lemma segment_move_away_from_centre (k : Kin) (move : Move) :
  xy (start_pos move) = (2, 2) -> xy (end_pos move) = (3, 3) ->
  segment_move k move = None.
Proof.
  intros Hs He.
  apply segment_move_not_crossing.
  rewrite Hs, He. unfold crosses_point, sqrdistance; cbn [fst snd].
  apply andb_false_iff; left; apply leb_false; lra.
Qed.

(** X28.  What [segment_move] does when the search finds its points: it
    returns [None] when [crosses_point((0,0), start, end)] is false.
    Otherwise the candidates are [(0, 0.005), (0, -0.005)] when both end
    points have X = 0, else [(0.005, 0), (-0.005, 0)] when both have Y = 0,
    else all four; when some candidate lies less than 100000 from the start
    and some less than 100000 from the end, [via_start] is a candidate
    nearest to the start, [via_end] one nearest to the end, chosen
    independently, and the result is
    [[(start, via_start), (via_start, via_end), (via_end, end)]].  The move
    from (-1,0) to (1,0) gives
    [[((-1,0),(-0.005,0)), ((-0.005,0),(0.005,0)), ((0.005,0),(1,0))]] and
    the move from (2,2) to (3,3) gives [None]. *)
Theorem segment_move_detours (k : Kin) (move : Move) :
  let s := xy (start_pos move) in
  let e := xy (end_pos move) in
  (crosses_point (0, 0) s e = false -> segment_move k move = None)
  /\ (crosses_point (0, 0) s e = true ->
      within_reach (detour_candidates s e) s ->
      within_reach (detour_candidates s e) e ->
      exists via_start via_end,
        nearest (detour_candidates s e) s via_start
        /\ nearest (detour_candidates s e) e via_end
        /\ segment_move k move =
           Some [(Pos (start_pos move), Opt via_start);
                 (Opt via_start, Opt via_end);
                 (Opt via_end, Pos (end_pos move))])
  /\ (s = (-1, 0) -> e = (1, 0) ->
      segment_move k move
      = Some [(Pos (start_pos move), Opt (-0.005, 0));
              (Opt (-0.005, 0), Opt (0.005, 0));
              (Opt (0.005, 0), Pos (end_pos move))])
  /\ (s = (2, 2) -> e = (3, 3) -> segment_move k move = None).
Proof.
  intros s e.
  split; [apply segment_move_not_crossing|].
  split; [apply segment_move_crossing|].
  split; [apply segment_move_through_centre | apply segment_move_away_from_centre].
Qed.

Lemma segment_move_detours_witness :
  segment_move sample_homed through_move
  = Some [(Pos (start_pos through_move), Opt (-0.005, 0));
          (Opt (-0.005, 0), Opt (0.005, 0));
          (Opt (0.005, 0), Pos (end_pos through_move))].
Proof.
  apply (segment_move_detours sample_homed through_move); reflexivity.
Defined.

Lemma far_move_out_of_reach (p c : point) :
  p = (200000, 0) \/ p = (-200000, 0) ->
  In c [(0.005, 0); (-0.005, 0)] ->
  100000 <= distance c p.
Proof.
  intros [-> | ->] [<- | [<- | []]]; rewrite distance_same_snd.
  - rewrite Rabs_of_pos; lra.
  - rewrite Rabs_of_pos; lra.
  - rewrite Rabs_of_neg; lra.
  - rewrite Rabs_of_neg; lra.
Qed.

(* 200000 away from the centre no candidate is nearer than the initial
   100000 of the loop: both detour points stay [None]. *)
Lemma segment_move_far_move (k : Kin) :
  segment_move k far_move
  = Some [(Pos (start_pos far_move), PyNone);
          (PyNone, PyNone);
          (PyNone, Pos (end_pos far_move))].
Proof.
  assert (Hopts : move_options far_move = [(0.005, 0); (-0.005, 0)]).
  { unfold move_options, far_move; cbn [start_pos end_pos cx cy].
    replace (Py.eqb 200000 0) with false by (symmetry; apply eqb_false; lra).
    replace (Py.eqb 0 0) with true by (symmetry; apply eqb_true; reflexivity).
    reflexivity. }
  destruct (closest_loop_invariant far_move (move_options far_move)) as [Is Ie].
  apply found_nearest_out_of_reach in Is;
    [|rewrite Hopts; intros c Hc; apply far_move_out_of_reach; auto].
  apply found_nearest_out_of_reach in Ie;
    [|rewrite Hopts; intros c Hc; apply far_move_out_of_reach; auto].
  unfold segment_move.
  rewrite Is, Ie.
  replace (crosses_point _ _ _) with true; [reflexivity|].
  symmetry; unfold crosses_point, sqrdistance, far_move, xy;
    cbn [start_pos end_pos cx cy fst snd].
  apply andb_true_iff; split; apply leb_true; lra.
Qed.

Lemma segment_move_counterexample :
  ~ segment_move_claim sample_homed far_move.
Proof.
  intros [_ H].
  destruct H as (vs & ve & _ & _ & E).
  - unfold crosses_point, sqrdistance, far_move, xy;
      cbn [start_pos end_pos cx cy fst snd].
    apply andb_true_iff; split; apply leb_true; lra.
  - rewrite segment_move_far_move in E.
    discriminate E.
Qed.

(** C2.  The code at the move from (200000, 0) to (-200000, 0): the move
    crosses the centre and both end points have Y = 0, so the candidates
    are [(0.005, 0)] and [(-0.005, 0)], which leaves a nearest one for each
    end point to select; yet [segment_move] returns
    [[(start, None), (None, None), (None, end)]], no candidate being nearer
    than the 100000 the search starts from.  The statement under study
    fails there. *)
Theorem segment_move_far_move_unrouted (k : Kin) :
  crosses_point (0, 0) (xy (start_pos far_move)) (xy (end_pos far_move)) = true
  /\ detour_candidates (xy (start_pos far_move)) (xy (end_pos far_move))
     = [(0.005, 0); (-0.005, 0)]
  /\ segment_move k far_move
     = Some [(Pos (start_pos far_move), PyNone);
             (PyNone, PyNone);
             (PyNone, Pos (end_pos far_move))]
  /\ ~ segment_move_claim k far_move.
Proof.
  assert (Hcross : crosses_point (0, 0) (xy (start_pos far_move))
                                 (xy (end_pos far_move)) = true).
  { unfold crosses_point, sqrdistance, far_move, xy;
      cbn [start_pos end_pos cx cy fst snd].
    apply andb_true_iff; split; apply leb_true; lra. }
  split; [exact Hcross|].
  split; [apply (detour_candidates_horizontal 200000 (-200000)); lra|].
  split; [apply segment_move_far_move|].
  intros [_ H].
  destruct (H Hcross) as (vs & ve & _ & _ & E).
  rewrite segment_move_far_move in E.
  discriminate E.
Qed.

(** * Further properties of the module *)

(** ** Geometry helpers *)

Lemma sqrt_le_of_sq (a b : R) : 0 <= b -> a <= b ^ 2 -> sqrt a <= b.
Proof.
  intros Hb H.
  destruct (Rle_lt_dec 0 a) as [Ha | Ha].
  - rewrite <- (sqrt_pow2 b Hb). apply sqrt_le_1; [exact Ha | apply pow2_ge_0 | exact H].
  - rewrite sqrt_neg_0 by lra. exact Hb.
Qed.

(** Cauchy-Schwarz in the plane. *)
Lemma dot_le_norms (a b c d : R) :
  a * c + b * d <= sqrt (a ^ 2 + b ^ 2) * sqrt (c ^ 2 + d ^ 2).
Proof.
  rewrite <- sqrt_mult by apply sq_sum_nonneg.
  destruct (Rle_lt_dec (a * c + b * d) 0) as [Hneg | Hpos].
  - pose proof (sqrt_pos ((a ^ 2 + b ^ 2) * (c ^ 2 + d ^ 2))); lra.
  - rewrite <- (sqrt_pow2 (a * c + b * d)) by lra.
    apply sqrt_le_1; [apply pow2_ge_0 | |].
    + apply Rmult_le_pos; apply sq_sum_nonneg.
    + assert (0 <= (a * d - b * c) ^ 2) by apply pow2_ge_0. nra.
Qed.

Lemma cross_le_norms (a b c d : R) :
  Rabs (a * d - b * c) <= sqrt (a ^ 2 + b ^ 2) * sqrt (c ^ 2 + d ^ 2).
Proof.
  unfold Rabs; destruct (Rcase_abs (a * d - b * c)).
  - pose proof (dot_le_norms a b (- d) c) as H.
    replace ((- d) ^ 2 + c ^ 2) with (c ^ 2 + d ^ 2) in H by ring. lra.
  - pose proof (dot_le_norms a b d (- c)) as H.
    replace (d ^ 2 + (- c) ^ 2) with (c ^ 2 + d ^ 2) in H by ring. lra.
Qed.

Lemma distance_zero_iff (p q : point) : distance p q = 0 <-> p = q.
Proof.
  destruct p as [px py], q as [qx qy]; unfold distance; cbn [fst snd].
  split.
  - intros H. apply sqrt_eq_0 in H; [|apply sq_sum_nonneg].
    pose proof (pow2_ge_0 (qx - px)); pose proof (pow2_ge_0 (qy - py)).
    assert (Hx : (qx - px) ^ 2 = 0) by lra.
    assert (Hy : (qy - py) ^ 2 = 0) by lra.
    f_equal; nra.
  - intros E; injection E as -> ->.
    replace ((qx - qx) ^ 2 + (qy - qy) ^ 2) with 0 by ring. apply sqrt_0.
Qed.

(** X1.  [distance] is a metric on the plane: it is zero exactly between a
    point and itself, symmetric, and satisfies the triangle inequality; and
    [sqrdistance] is its square. *)
Theorem distance_metric (p q r : point) :
  (distance p q = 0 <-> p = q)
  /\ distance p q = distance q p
  /\ distance p r <= distance p q + distance q r
  /\ sqrdistance p q = distance p q ^ 2.
Proof.
  split; [apply distance_zero_iff|].
  split; [rewrite !distance_sqrt, (sqrdistance_sym p q); reflexivity|].
  split.
  - destruct p as [px py], q as [qx qy], r as [rx ry].
    pose proof (dot_le_norms (qx - px) (qy - py) (rx - qx) (ry - qy)) as Hcs.
    unfold distance; cbn [fst snd].
    set (A := (qx - px) ^ 2 + (qy - py) ^ 2) in *.
    set (B := (rx - qx) ^ 2 + (ry - qy) ^ 2) in *.
    assert (HA : 0 <= A) by apply sq_sum_nonneg.
    assert (HB : 0 <= B) by apply sq_sum_nonneg.
    pose proof (sqrt_pos A) as HsA. pose proof (sqrt_pos B) as HsB.
    pose proof (sqrt_sqrt A HA) as EA. pose proof (sqrt_sqrt B HB) as EB.
    apply sqrt_le_of_sq; [lra|].
    replace ((rx - px) ^ 2 + (ry - py) ^ 2)
      with (A + B + 2 * ((qx - px) * (rx - qx) + (qy - py) * (ry - qy)))
      by (unfold A, B; ring).
    nra.
  - rewrite distance_sqrt, pow2_sqrt; [reflexivity | apply sqrdistance_nonneg].
Qed.

(** X2.  Every point of the segment from [a] to [b] passes [crosses_point]:
    the test is loose, but it misses no point that is on the segment. *)
Theorem crosses_point_on_segment (a b : point) (t : R) :
  0 <= t <= 1 ->
  crosses_point (fst a + t * (fst b - fst a), snd a + t * (snd b - snd a)) a b
  = true.
Proof.
  intros Ht.
  destruct a as [ax ay], b as [bx by_].
  unfold crosses_point, sqrdistance; cbn [fst snd].
  pose proof (sq_sum_nonneg (bx - ax) (by_ - ay)) as HD.
  set (D := (bx - ax) ^ 2 + (by_ - ay) ^ 2) in *.
  apply andb_true_iff; split; apply leb_true.
  - replace ((ax - (ax + t * (bx - ax))) ^ 2 + (ay - (ay + t * (by_ - ay))) ^ 2)
      with (t * t * D) by (unfold D; ring).
    assert (Ht2 : t * t <= 1) by nra.
    pose proof (Rmult_le_compat_r D (t * t) 1 HD Ht2); lra.
  - replace ((bx - (ax + t * (bx - ax))) ^ 2 + (by_ - (ay + t * (by_ - ay))) ^ 2)
      with ((1 - t) * (1 - t) * D) by (unfold D; ring).
    assert (Ht2 : (1 - t) * (1 - t) <= 1) by nra.
    pose proof (Rmult_le_compat_r D ((1 - t) * (1 - t)) 1 HD Ht2); lra.
Qed.

Lemma crosses_point_on_segment_witness :
  crosses_point (0, 0) (-1, 0) (1, 0) = true.
Proof.
  assert (H : 0 <= / 2 <= 1) by lra.
  pose proof (crosses_point_on_segment (-1, 0) (1, 0) (/ 2) H) as E.
  cbn [fst snd] in E.
  replace (-1 + / 2 * (1 - -1)) with 0 in E by lra.
  replace (0 + / 2 * (0 - 0)) with 0 in E by lra.
  exact E.
Defined.

(** X3.  On a segment of length zero [crosses_point] holds at that one
    point only. *)
Theorem crosses_point_degenerate (p a : point) :
  crosses_point p a a = true <-> p = a.
Proof.
  unfold crosses_point.
  rewrite andb_diag, leb_true.
  replace (sqrdistance a a) with 0 by (unfold sqrdistance; ring).
  rewrite <- distance_zero_iff.
  pose proof (sqrdistance_nonneg p a) as Hn.
  rewrite distance_sqrt.
  split.
  - intros H. replace (sqrdistance p a) with 0 by lra. apply sqrt_0.
  - intros H. apply sqrt_eq_0 in H; [lra | exact Hn].
Qed.

(** X4.  [distance_point_to_line] raises [ZeroDivisionError] exactly when
    the two points given for the line coincide, and returns a number
    otherwise. *)
Theorem distance_point_to_line_error (p0 p1 p2 : point) :
  (p1 = p2 ->
   @distance_point_to_line Empty_set p0 p1 p2 = ([], Py.Raise Py.ZeroDivisionError))
  /\ (p1 <> p2 ->
      exists d, @distance_point_to_line Empty_set p0 p1 p2 = ([], Py.Ok d)).
Proof.
  unfold distance_point_to_line, Py.div.
  split; intros H.
  - apply distance_zero_iff in H. rewrite H.
    replace (Py.eqb 0 0) with true by (symmetry; apply eqb_true; reflexivity).
    reflexivity.
  - replace (Py.eqb (distance p1 p2) 0) with false; [eexists; reflexivity|].
    symmetry; apply eqb_false. intros E; apply H, distance_zero_iff, E.
Qed.

(** X5.  For a line through two distinct points the result of
    [distance_point_to_line] is not negative and at most the distance from
    the point to either of the two, and it is zero for a point on the
    line. *)
Theorem distance_point_to_line_bound (p0 p1 p2 : point) :
  p1 <> p2 ->
  exists d,
    @distance_point_to_line Empty_set p0 p1 p2 = ([], Py.Ok d)
    /\ 0 <= d /\ d <= distance p0 p1 /\ d <= distance p0 p2
    /\ (forall t, p0 = (fst p1 + t * (fst p2 - fst p1),
                         snd p1 + t * (snd p2 - snd p1)) -> d = 0).
Proof.
  intros Hne.
  assert (Hd : distance p1 p2 <> 0)
    by (intros E; apply Hne, distance_zero_iff, E).
  pose proof (distance_nonneg p1 p2) as Hpos.
  assert (Hlt : 0 < distance p1 p2) by lra.
  unfold distance_point_to_line, Py.div.
  replace (Py.eqb (distance p1 p2) 0) with false
    by (symmetry; apply eqb_false; exact Hd).
  eexists; split; [reflexivity|].
  destruct p0 as [x0 y0], p1 as [x1 y1], p2 as [x2 y2]; cbn [fst snd] in *.
  set (cr := (x2 - x1) * (y1 - y0) - (x1 - x0) * (y2 - y1)).
  pose proof (Rabs_pos cr) as Hcr.
  split; [apply Rmult_le_pos; [exact Hcr | left; apply Rinv_0_lt_compat; exact Hlt]|].
  split; [|split].
  - apply (Rmult_le_reg_r (distance (x1, y1) (x2, y2))); [exact Hlt|].
    unfold Rdiv; rewrite Rmult_assoc, Rinv_l, Rmult_1_r by exact Hd.
    pose proof (cross_le_norms (x1 - x0) (y1 - y0) (x2 - x1) (y2 - y1)) as H.
    unfold distance; cbn [fst snd].
    replace cr with (- ((x1 - x0) * (y2 - y1) - (y1 - y0) * (x2 - x1)))
      by (unfold cr; ring).
    rewrite Rabs_Ropp. exact H.
  - apply (Rmult_le_reg_r (distance (x1, y1) (x2, y2))); [exact Hlt|].
    unfold Rdiv; rewrite Rmult_assoc, Rinv_l, Rmult_1_r by exact Hd.
    pose proof (cross_le_norms (x2 - x0) (y2 - y0) (x2 - x1) (y2 - y1)) as H.
    unfold distance; cbn [fst snd].
    replace cr with (- ((x2 - x0) * (y2 - y1) - (y2 - y0) * (x2 - x1)))
      by (unfold cr; ring).
    rewrite Rabs_Ropp. exact H.
  - intros t E; injection E as -> ->.
    replace cr with 0 by (unfold cr; ring).
    rewrite Rabs_R0; unfold Rdiv; ring.
Qed.

Lemma distance_point_to_line_bound_witness :
  exists d,
    @distance_point_to_line Empty_set (0, 1) (-1, 0) (1, 0) = ([], Py.Ok d)
    /\ 0 <= d /\ d <= distance (0, 1) (-1, 0) /\ d <= distance (0, 1) (1, 0).
Proof.
  assert (H : (-1, 0) <> (1, 0) :> point) by (intros E; injection E; lra).
  destruct (distance_point_to_line_bound (0, 1) (-1, 0) (1, 0) H)
    as (d & E & H0 & H1 & H2 & _).
  exists d; auto.
Defined.

Lemma distance_point_to_line_error_witness :
  @distance_point_to_line Empty_set (0, 1) (1, 0) (1, 0)
  = ([], Py.Raise Py.ZeroDivisionError).
Proof.
  apply (distance_point_to_line_error (0, 1) (1, 0) (1, 0)); reflexivity.
Defined.

(** ** What check_move accepts *)

Lemma check_move_ok_facts (k : Kin) (move : Move) :
  Py.outcome (check_move k move) = Py.Ok tt ->
  cx (end_pos move) ^ 2 + cy (end_pos move) ^ 2 <= limit_xy2 k
  /\ (cz (axes_d move) <> 0 ->
      fst (limit_z k) <= cz (end_pos move) <= snd (limit_z k)).
Proof.
  run_check_move; intros E; try discriminate E; split; try lra; intros Hz;
    try lra; try tauto.
Qed.

(** X6.  A move that [check_move] accepts was checked against homed limits:
    [get_status] then reports the planar axes homed, and the vertical axis
    too when the move has a vertical displacement. *)
Theorem check_move_accepts_only_homed (k : Kin) (move : Move) (eventtime : R) :
  Py.outcome (check_move k move) = Py.Ok tt ->
  exists z_home,
    fst (fst (get_status k eventtime)) = String.append "xy" z_home
    /\ (cz (axes_d move) <> 0 -> z_home = "z"%string).
Proof.
  intros Hok.
  destruct (check_move_ok_facts k move Hok) as [Hxy Hz].
  pose proof (sq_sum_nonneg (cx (end_pos move)) (cy (end_pos move))) as Hsq.
  unfold get_status; cbn [fst].
  replace (Py.leb 0 (limit_xy2 k)) with true by (symmetry; apply leb_true; lra).
  eexists; split; [reflexivity|].
  intros Hdz. specialize (Hz Hdz).
  replace (Py.leb _ _) with true by (symmetry; apply leb_true; lra).
  reflexivity.
Qed.

Lemma sample_rising_accepted :
  check_move sample_homed rising_move
  = ([rotational_limit math_pi sample_homed rising_move;
      vertical_limit sample_homed rising_move], Py.Ok tt).
Proof.
  apply check_move_both_limits.
  - right; simpl; lra.
  - simpl; lra.
  - unfold radius_exceeded; simpl; lra.
  - simpl; lra.
  - simpl; lra.
Qed.

Lemma check_move_accepts_only_homed_witness :
  exists z_home,
    fst (fst (get_status sample_homed 0)) = String.append "xy" z_home
    /\ (cz (axes_d rising_move) <> 0 -> z_home = "z"%string).
Proof.
  apply (check_move_accepts_only_homed sample_homed rising_move 0).
  unfold Py.outcome; rewrite sample_rising_accepted; reflexivity.
Defined.

(** X7.  In every state reached from construction, a move that
    [check_move] accepts ends inside the reported envelope: its X and Y lie
    within the radial rail's maximum travel of the centre, and its Z within
    the second rail's range when the move has a vertical displacement. *)
Theorem check_move_accepted_inside_envelope
    (c : Config) (evs : list event) (move : Move) :
  Py.outcome (check_move (run c evs) move) = Py.Ok tt ->
  Rabs (cx (end_pos move)) <= Rabs (position_max (rail_x c))
  /\ Rabs (cy (end_pos move)) <= Rabs (position_max (rail_x c))
  /\ (cz (axes_d move) <> 0 ->
      position_min (rail_z c) <= cz (end_pos move) <= position_max (rail_z c)).
Proof.
  intros Hok.
  destruct (check_move_ok_facts _ move Hok) as [Hxy Hz].
  pose proof (pow2_ge_0 (cx (end_pos move))) as Hx2.
  pose proof (pow2_ge_0 (cy (end_pos move))) as Hy2.
  destruct (run_limit_xy2 c evs) as [[E _] | [E _]]; rewrite E in Hxy; [lra|].
  split; [|split].
  - rewrite <- !sqrt_pow2_abs. apply sqrt_le_1; [exact Hx2 | apply pow2_ge_0 | lra].
  - rewrite <- !sqrt_pow2_abs. apply sqrt_le_1; [exact Hy2 | apply pow2_ge_0 | lra].
  - intros Hdz. specialize (Hz Hdz).
    destruct (run_limit_z c evs) as [[Ez _] | [Ez _]]; rewrite Ez in Hz;
      cbn [fst snd get_range] in Hz; lra.
Qed.

Lemma check_move_accepted_inside_envelope_witness :
  Rabs (cx (end_pos rising_move)) <= Rabs (position_max (rail_x sample_config))
  /\ Rabs (cy (end_pos rising_move)) <= Rabs (position_max (rail_x sample_config))
  /\ (cz (axes_d rising_move) <> 0 ->
      position_min (rail_z sample_config) <= cz (end_pos rising_move)
      <= position_max (rail_z sample_config)).
Proof.
  apply (check_move_accepted_inside_envelope sample_config homed_history rising_move).
  change (run sample_config homed_history) with sample_homed.
  unfold Py.outcome; rewrite sample_rising_accepted; reflexivity.
Defined.

(** X8.  A planar move that starts or ends at the rotation centre, and
    passes the radius check, gets the rotational limit with a second
    argument of zero: the scale is proportional to the smaller of the two
    radii. *)
Theorem check_move_centre_limit (k : Kin) (move : Move) :
  0 < position_max (rail_x k) ->
  planar_displacement move ->
  ~ radius_exceeded k move ->
  xy (start_pos move) = (0, 0) \/ xy (end_pos move) = (0, 0) ->
  hd_error (Py.calls (check_move k move))
  = Some (limit_speed (max_rotational_accel k) 0).
Proof.
  intros Hmax Hplanar Hradius Hcentre.
  rewrite (check_move_first_call k move Hplanar Hradius)
    by (apply bed_radius_nonzero; lra).
  assert (Hmin : Rmin (distance bed_center (xy (start_pos move)))
                      (distance bed_center (xy (end_pos move))) = 0).
  { pose proof (distance_nonneg bed_center (xy (start_pos move))).
    pose proof (distance_nonneg bed_center (xy (end_pos move))).
    assert (Hz : distance bed_center (0, 0) = 0)
      by (apply distance_zero_iff; reflexivity).
    destruct Hcentre as [E | E]; rewrite E, Hz.
    - apply Rmin_left; assumption.
    - apply Rmin_right; assumption. }
  rewrite Hmin. do 2 f_equal. unfold Rdiv; ring.
Qed.

Lemma check_move_centre_limit_witness :
  hd_error (Py.calls (check_move sample_homed inward_move))
  = Some (limit_speed (max_rotational_accel sample_homed) 0).
Proof.
  apply (check_move_centre_limit sample_homed inward_move).
  - simpl; lra.
  - left; simpl; lra.
  - unfold radius_exceeded; simpl; lra.
  - right; reflexivity.
Defined.

(** X9.  With the planar limit homed (the square of the radial rail's
    positive maximum travel), the second argument of the rotational limit
    lies between zero and [2 * pi * max_rotational_velocity]: the
    destination passed the radius check, so the smaller radius is at most
    the bed radius. *)
Theorem rotational_scale_bounded (k : Kin) (move : Move) :
  0 < position_max (rail_x k) ->
  limit_xy2 k = position_max (rail_x k) ^ 2 ->
  0 <= max_rotational_velocity k ->
  planar_displacement move ->
  ~ radius_exceeded k move ->
  exists v,
    hd_error (Py.calls (check_move k move))
    = Some (limit_speed (max_rotational_accel k) v)
    /\ 0 <= v <= max_rotational_velocity k * (2 * PI).
Proof.
  intros Hmax Hlim Hvel Hplanar Hradius.
  rewrite (check_move_first_call k move Hplanar Hradius)
    by (apply bed_radius_nonzero; lra).
  eexists; split; [reflexivity|].
  rewrite (bed_radius_pos k Hmax).
  set (m := Rmin _ _).
  assert (Hm0 : 0 <= m) by (apply Rmin_glb; apply distance_nonneg).
  assert (Hm1 : m <= position_max (rail_x k)).
  { apply Rle_trans with (distance bed_center (xy (end_pos move)));
      [apply Rmin_r|].
    unfold distance, bed_center, xy; cbn [fst snd].
    apply sqrt_le_of_sq; [lra|].
    unfold radius_exceeded in Hradius. rewrite Hlim in Hradius.
    replace ((cx (end_pos move) - 0) ^ 2 + (cy (end_pos move) - 0) ^ 2)
      with (cx (end_pos move) ^ 2 + cy (end_pos move) ^ 2) by ring.
    lra. }
  pose proof PI_RGT_0 as Hpi.
  assert (Hq0 : 0 <= m / position_max (rail_x k))
    by (apply Rmult_le_pos; [exact Hm0 | left; apply Rinv_0_lt_compat; exact Hmax]).
  assert (Hq1 : m / position_max (rail_x k) <= 1).
  { apply (Rmult_le_reg_r (position_max (rail_x k))); [exact Hmax|].
    unfold Rdiv; rewrite Rmult_assoc, Rinv_l by lra. lra. }
  unfold math_pi.
  split.
  - apply Rmult_le_pos; [exact Hvel|].
    apply Rmult_le_pos; [lra | exact Hq0].
  - apply Rmult_le_compat_l; [exact Hvel|].
    assert (0 <= 2 * PI) by lra. nra.
Qed.

Lemma rotational_scale_bounded_witness :
  exists v,
    hd_error (Py.calls (check_move sample_homed rim_move))
    = Some (limit_speed (max_rotational_accel sample_homed) v)
    /\ 0 <= v <= max_rotational_velocity sample_homed * (2 * PI).
Proof.
  apply (rotational_scale_bounded sample_homed rim_move).
  - simpl; lra.
  - reflexivity.
  - simpl; lra.
  - left; simpl; lra.
  - unfold radius_exceeded; simpl; lra.
Defined.

Lemma check_move_vertical_only (k : Kin) (move : Move) :
  cx (axes_d move) = 0 -> cy (axes_d move) = 0 ->
  cz (axes_d move) <> 0 ->
  ~ radius_exceeded k move ->
  fst (limit_z k) <= cz (end_pos move) <= snd (limit_z k) ->
  check_move k move = ([vertical_limit k move], Py.Ok tt).
Proof.
  intros Hdx Hdy Hdz Hradius Hwin.
  pose proof (Rabs_no_R0 _ Hdz) as Habs.
  unfold radius_exceeded in Hradius.
  run_check_move; try (exfalso; lra); try (exfalso; tauto).
  reflexivity.
Qed.

(** X10.  A purely vertical move, whose length is the size of its vertical
    displacement, that passes both checks gets exactly
    [limit_speed(max_z_velocity, max_z_accel)] and nothing else. *)
Theorem vertical_limit_pure_z (k : Kin) (move : Move) :
  cx (axes_d move) = 0 -> cy (axes_d move) = 0 ->
  cz (axes_d move) <> 0 ->
  move_d move = Rabs (cz (axes_d move)) ->
  ~ radius_exceeded k move ->
  fst (limit_z k) <= cz (end_pos move) <= snd (limit_z k) ->
  check_move k move
  = ([limit_speed (max_z_velocity k) (max_z_accel k)], Py.Ok tt).
Proof.
  intros Hdx Hdy Hdz Hd Hradius Hwin.
  pose proof (Rabs_no_R0 _ Hdz) as Habs.
  rewrite (check_move_vertical_only k move Hdx Hdy Hdz Hradius Hwin).
  unfold vertical_limit. rewrite Hd.
  do 3 f_equal; field; exact Habs.
Qed.

Lemma vertical_limit_pure_z_witness :
  check_move sample_homed lift_move
  = ([limit_speed (max_z_velocity sample_homed) (max_z_accel sample_homed)],
     Py.Ok tt).
Proof.
  apply (vertical_limit_pure_z sample_homed lift_move).
  - reflexivity.
  - reflexivity.
  - simpl; lra.
  - simpl; rewrite Rabs_of_pos; lra.
  - unfold radius_exceeded; simpl; lra.
  - simpl; lra.
Defined.

(** X11.  When a move is at least as long as its vertical displacement, the
    vertical limit is never below the configured one: both arguments of the
    last [limit_speed] call are at least [max_z_velocity] and
    [max_z_accel]. *)
Theorem vertical_limit_at_least (k : Kin) (move : Move) (before : list limit_call)
    (l : limit_call) :
  cz (axes_d move) <> 0 ->
  Rabs (cz (axes_d move)) <= move_d move ->
  0 <= max_z_velocity k -> 0 <= max_z_accel k ->
  check_move k move = (before ++ [l], Py.Ok tt) ->
  max_z_velocity k <= ls_first l /\ max_z_accel k <= ls_second l.
Proof.
  intros Hdz Hlen Hv Ha E.
  pose proof (Rabs_pos_lt _ Hdz) as Habs.
  assert (Hratio : 1 <= move_d move / Rabs (cz (axes_d move))).
  { apply (Rmult_le_reg_r (Rabs (cz (axes_d move)))); [exact Habs|].
    unfold Rdiv; rewrite Rmult_assoc, Rinv_l by lra. lra. }
  assert (Hlast : forall cs, check_move k move = (cs, Py.Ok tt) ->
                  last cs l = vertical_limit k move).
  { run_check_move; intros cs E'; try discriminate E';
      try (exfalso; lra); try (exfalso; tauto);
      injection E' as <-; reflexivity. }
  specialize (Hlast _ E). rewrite last_last in Hlast.
  subst l; unfold vertical_limit; cbn [ls_first ls_second].
  split; nra.
Qed.

Lemma vertical_limit_at_least_witness :
  max_z_velocity sample_homed <= ls_first (vertical_limit sample_homed lift_move)
  /\ max_z_accel sample_homed <= ls_second (vertical_limit sample_homed lift_move).
Proof.
  apply (vertical_limit_at_least sample_homed lift_move []).
  - simpl; lra.
  - simpl; rewrite Rabs_of_pos; lra.
  - simpl; lra.
  - simpl; lra.
  - apply check_move_vertical_only.
    + reflexivity.
    + reflexivity.
    + simpl; lra.
    + unfold radius_exceeded; simpl; lra.
    + simpl; lra.
Defined.

(** X12.  A move with no displacement on the first three axes (extrusion
    alone) gets no limit at all, and is accepted exactly when its
    destination is within the radius limit. *)
Theorem check_move_no_displacement (k : Kin) (move : Move) :
  cx (axes_d move) = 0 -> cy (axes_d move) = 0 -> cz (axes_d move) = 0 ->
  Py.calls (check_move k move) = []
  /\ (Py.outcome (check_move k move) = Py.Ok tt <-> ~ radius_exceeded k move).
Proof.
  intros Hdx Hdy Hdz.
  unfold radius_exceeded.
  run_check_move; try (exfalso; lra); try (exfalso; tauto);
    (split; [reflexivity|]); split; intros Hgoal; try discriminate Hgoal;
    try reflexivity; try lra.
Qed.

Lemma check_move_no_displacement_witness :
  Py.calls (check_move sample_homed extrude_move) = []
  /\ (Py.outcome (check_move sample_homed extrude_move) = Py.Ok tt
      <-> ~ radius_exceeded sample_homed extrude_move).
Proof.
  apply (check_move_no_displacement sample_homed extrude_move); reflexivity.
Defined.

(** X13.  The rotational limit is set before the vertical check: a move
    with planar and vertical displacement whose destination Z is outside
    [limit_z] is rejected, and has already received the rotational limit. *)
Theorem check_move_limits_before_rejecting (k : Kin) (move : Move) :
  0 < position_max (rail_x k) ->
  planar_displacement move ->
  ~ radius_exceeded k move ->
  z_outside k move ->
  Py.calls (check_move k move) = [rotational_limit math_pi k move]
  /\ exists msg, Py.outcome (check_move k move) = Py.Raise (Py.MoveError msg).
Proof.
  intros Hmax Hplanar Hradius [Hdz Hout].
  pose proof (bed_radius_pos k Hmax) as Hbed.
  unfold planar_displacement, radius_exceeded, rotational_limit in *.
  run_check_move; try (exfalso; lra); try (exfalso; tauto).
  all: split; [|eexists; reflexivity].
  all: do 3 f_equal; rewrite Hbed; unfold bed_center; field; lra.
Qed.

Lemma check_move_limits_before_rejecting_witness :
  Py.calls (check_move sample_homed overshoot_move)
  = [rotational_limit math_pi sample_homed overshoot_move]
  /\ exists msg,
       Py.outcome (check_move sample_homed overshoot_move)
       = Py.Raise (Py.MoveError msg).
Proof.
  apply (check_move_limits_before_rejecting sample_homed overshoot_move).
  - simpl; lra.
  - right; simpl; lra.
  - unfold radius_exceeded; simpl; lra.
  - split; [simpl; lra | right; simpl; lra].
Defined.

(** X14.  After the motor-off notification every move is rejected with
    "Must home axis first", no limit is set, and [get_status] reports no
    homed axis, whatever the state before. *)
Theorem motor_off_unhomes (k : Kin) (print_time eventtime : R) (move : Move) :
  check_move (_motor_off k print_time) move
  = ([], Py.Raise (Py.MoveError (Some must_home)))
  /\ fst (fst (get_status (_motor_off k print_time) eventtime)) = ""%string.
Proof.
  split.
  - pose proof (sq_sum_nonneg (cx (end_pos move)) (cy (end_pos move))) as Hsq.
    run_check_move; cbn [_motor_off limit_xy2] in *; try reflexivity;
      exfalso; lra.
  - unfold get_status, _motor_off; cbn [fst snd limit_xy2 limit_z].
    replace (Py.leb 0 (-1)) with false by (symmetry; apply leb_false; lra).
    replace (Py.leb 1 (-1)) with false by (symmetry; apply leb_false; lra).
    reflexivity.
Qed.

(** X15.  After [note_z_not_homed] the planar limit is as before, and a
    move with a vertical displacement that reaches the vertical check is
    rejected with "Must home axis first", whatever its destination. *)
Theorem note_z_not_homed_rejects_vertical (k : Kin) (move : Move) :
  cz (axes_d move) <> 0 ->
  ~ radius_exceeded k move ->
  (planar_displacement move -> position_max (rail_x k) <> 0) ->
  limit_xy2 (note_z_not_homed k) = limit_xy2 k
  /\ Py.outcome (check_move (note_z_not_homed k) move)
     = Py.Raise (Py.MoveError (Some must_home)).
Proof.
  intros Hdz Hradius Hbed.
  split; [reflexivity|].
  pose proof (bed_radius_nonzero (note_z_not_homed k)) as Hnz.
  unfold planar_displacement, radius_exceeded in *.
  run_check_move; cbn [note_z_not_homed limit_xy2 limit_z config fst snd] in *;
    try reflexivity; try (exfalso; lra); try (exfalso; tauto).
Qed.

Lemma note_z_not_homed_rejects_vertical_witness :
  limit_xy2 (note_z_not_homed sample_homed) = limit_xy2 sample_homed
  /\ Py.outcome (check_move (note_z_not_homed sample_homed) lift_move)
     = Py.Raise (Py.MoveError (Some must_home)).
Proof.
  apply (note_z_not_homed_rejects_vertical sample_homed lift_move).
  - simpl; lra.
  - unfold radius_exceeded; simpl; lra.
  - intros _; simpl; lra.
Defined.

(** ** When and how segment_move detours *)

(** X16.  [segment_move] splits a move exactly when twice the scalar
    product of its end points (taken from the centre) is at most the squared
    radius of each of them; in particular every move whose end points are
    seen from the centre at a right or obtuse angle is split, however far
    from the centre it passes. *)
Theorem segment_move_when (k : Kin) (move : Move) :
  let sx := cx (start_pos move) in
  let sy := cy (start_pos move) in
  let ex := cx (end_pos move) in
  let ey := cy (end_pos move) in
  (segment_move k move <> None
   <-> 2 * (sx * ex + sy * ey) <= sx ^ 2 + sy ^ 2
       /\ 2 * (sx * ex + sy * ey) <= ex ^ 2 + ey ^ 2)
  /\ (sx * ex + sy * ey <= 0 -> segment_move k move <> None).
Proof.
  intros sx sy ex ey.
  assert (Hcross : crosses_point (0, 0) (xy (start_pos move)) (xy (end_pos move)) = true
                   <-> 2 * (sx * ex + sy * ey) <= sx ^ 2 + sy ^ 2
                       /\ 2 * (sx * ex + sy * ey) <= ex ^ 2 + ey ^ 2).
  { unfold crosses_point, sqrdistance, xy; cbn [fst snd]; fold sx sy ex ey.
    rewrite andb_true_iff, !leb_true.
    split; intros [H1 H2]; split; nra. }
  assert (Hseg : segment_move k move <> None
                 <-> crosses_point (0, 0) (xy (start_pos move)) (xy (end_pos move)) = true).
  { unfold segment_move.
    destruct (crosses_point _ _ _); split; intros H; congruence. }
  split; [rewrite Hseg; exact Hcross|].
  intros Hdot. apply Hseg, Hcross.
  pose proof (pow2_ge_0 sx); pose proof (pow2_ge_0 sy).
  pose proof (pow2_ge_0 ex); pose proof (pow2_ge_0 ey).
  split; lra.
Qed.

Lemma segment_move_when_witness :
  segment_move sample_homed rim_move <> None.
Proof.
  apply (segment_move_when sample_homed rim_move).
  simpl; lra.
Defined.

Lemma move_options_radius (move : Move) (c : point) :
  In c (move_options move) -> distance (0, 0) c = 0.005.
Proof.
  intros Hin. apply move_options_candidates in Hin.
  unfold detour_candidates in Hin.
  destruct (_ && _) in Hin; [|destruct (_ && _) in Hin]; cbn [In] in Hin;
    repeat (destruct Hin as [<- | Hin]); try contradiction;
    first [ rewrite distance_same_fst | rewrite distance_same_snd ];
    first [ rewrite Rabs_of_pos by lra; lra | rewrite Rabs_of_neg by lra; lra ].
Qed.

Lemma found_nearest_member (p : point) (l : list point) (d : R) (o : option point)
    (v : point) :
  found_nearest p l d o -> o = Some v -> In v l.
Proof.
  intros [(-> & _) | (v' & -> & _ & _ & Hin & _)] E; [discriminate E|].
  injection E as <-; exact Hin.
Qed.

Lemma distance_triangle (p q r : point) :
  distance p r <= distance p q + distance q r.
Proof.
  destruct p as [px py], q as [qx qy], r as [rx ry].
  pose proof (dot_le_norms (qx - px) (qy - py) (rx - qx) (ry - qy)) as Hcs.
  unfold distance; cbn [fst snd].
  set (A := (qx - px) ^ 2 + (qy - py) ^ 2) in *.
  set (B := (rx - qx) ^ 2 + (ry - qy) ^ 2) in *.
  assert (HA : 0 <= A) by apply sq_sum_nonneg.
  assert (HB : 0 <= B) by apply sq_sum_nonneg.
  pose proof (sqrt_pos A) as HsA. pose proof (sqrt_pos B) as HsB.
  pose proof (sqrt_sqrt A HA) as EA. pose proof (sqrt_sqrt B HB) as EB.
  apply sqrt_le_of_sq; [lra|].
  replace ((rx - px) ^ 2 + (ry - py) ^ 2)
    with (A + B + 2 * ((qx - px) * (rx - qx) + (qy - py) * (ry - qy)))
    by (unfold A, B; ring).
  nra.
Qed.

Lemma move_options_first (move : Move) : exists c, In c (move_options move).
Proof.
  unfold move_options.
  destruct (_ && _); [|destruct (_ && _)]; eexists; left; reflexivity.
Qed.

(** A point less than 99999 from the centre has every candidate less than
    100000 away. *)
Lemma move_options_within_reach (move : Move) (p : point) :
  distance (0, 0) p < 99999 -> within_reach (move_options move) p.
Proof.
  intros Hp.
  destruct (move_options_first move) as [c Hc].
  exists c; split; [exact Hc|].
  pose proof (distance_triangle c (0, 0) p) as Ht.
  pose proof (move_options_radius move c Hc) as Hr.
  rewrite !distance_sqrt, (sqrdistance_sym c (0, 0)), <- !distance_sqrt in Ht.
  lra.
Qed.

Lemma found_nearest_waypoint (p : point) (move : Move) (d : R) (o : option point) :
  found_nearest p (move_options move) d o ->
  (opt_waypoint o = PyNone
   \/ exists v, opt_waypoint o = Opt v /\ distance (0, 0) v = 0.005)
  /\ (distance (0, 0) p < 99999 -> opt_waypoint o <> PyNone).
Proof.
  intros Hf.
  split.
  - destruct o as [v|]; [right | left; reflexivity].
    exists v; split; [reflexivity|].
    apply (move_options_radius move), (found_nearest_member _ _ _ _ _ Hf eq_refl).
  - intros Hp.
    destruct (found_nearest_within_reach _ _ _ _ Hf
                (move_options_within_reach move p Hp)) as (v & -> & _).
    discriminate.
Qed.

(** X17.  Whenever [segment_move] returns a list, it is the chain
    [[(start, a), (a, b), (b, end)]] from the start to the end of the move,
    and each of the two inner waypoints [a] and [b] is either [None] or a
    point exactly 0.005 from the centre; [a] is a point whenever the start
    of the move lies less than 99999 from the centre, and [b] whenever its
    end does. *)
Theorem segment_move_detour_radius (k : Kin) (move : Move)
    (segs : list (waypoint * waypoint)) :
  segment_move k move = Some segs ->
  exists a b,
    segs = [(Pos (start_pos move), a); (a, b); (b, Pos (end_pos move))]
    /\ (a = PyNone \/ exists p, a = Opt p /\ distance (0, 0) p = 0.005)
    /\ (b = PyNone \/ exists p, b = Opt p /\ distance (0, 0) p = 0.005)
    /\ (distance (0, 0) (xy (start_pos move)) < 99999 -> a <> PyNone)
    /\ (distance (0, 0) (xy (end_pos move)) < 99999 -> b <> PyNone).
Proof.
  unfold segment_move.
  destruct (crosses_point _ _ _); [|discriminate].
  destruct (closest_loop_invariant move (move_options move)) as [Is Ie].
  set (st := fold_left _ _ _) in *.
  intros E; injection E as <-.
  destruct (found_nearest_waypoint _ _ _ _ Is) as [Ha Ha'].
  destruct (found_nearest_waypoint _ _ _ _ Ie) as [Hb Hb'].
  do 2 eexists; split; [reflexivity|].
  repeat split; assumption.
Qed.

Lemma through_move_radii :
  distance (0, 0) (xy (start_pos through_move)) < 99999
  /\ distance (0, 0) (xy (end_pos through_move)) < 99999.
Proof.
  unfold through_move, xy; cbn [start_pos end_pos cx cy].
  rewrite !distance_same_snd.
  split; [rewrite Rabs_of_neg by lra | rewrite Rabs_of_pos by lra]; lra.
Qed.

Lemma segment_move_detour_radius_witness :
  exists a b,
    [(Pos (start_pos through_move), Opt (-0.005, 0));
     (Opt (-0.005, 0), Opt (0.005, 0));
     (Opt (0.005, 0), Pos (end_pos through_move))]
    = [(Pos (start_pos through_move), a); (a, b); (b, Pos (end_pos through_move))]
    /\ (a = PyNone \/ exists p, a = Opt p /\ distance (0, 0) p = 0.005)
    /\ (b = PyNone \/ exists p, b = Opt p /\ distance (0, 0) p = 0.005)
    /\ a <> PyNone /\ b <> PyNone.
Proof.
  destruct (segment_move_detour_radius sample_homed through_move _
              (segment_move_through_centre sample_homed through_move
                 eq_refl eq_refl))
    as (a & b & E & Ha & Hb & Ha' & Hb').
  destruct through_move_radii as [Hs He].
  exists a, b; repeat split; auto.
Defined.

(** ** What get_status reports along the life of the object *)

(** X18.  In every state reached from construction, with a second rail
    whose range is not inverted, the [homed_axes] of [get_status] is "xy"
    exactly when both planar axes were set in one [set_position] with no
    motor-off since, followed by "z" exactly when the Z axis was set with no
    motor-off or [note_z_not_homed] since. *)
Theorem get_status_tracks_history (c : Config) (evs : list event) (eventtime : R) :
  position_min (rail_z c) <= position_max (rail_z c) ->
  let homed := fst (fst (get_status (run c evs) eventtime)) in
  (xy_homed_since evs -> z_homed_since evs -> homed = "xyz"%string)
  /\ (xy_homed_since evs -> ~ z_homed_since evs -> homed = "xy"%string)
  /\ (~ xy_homed_since evs -> z_homed_since evs -> homed = "z"%string)
  /\ (~ xy_homed_since evs -> ~ z_homed_since evs -> homed = ""%string).
Proof.
  intros Hrange homed; subst homed.
  unfold get_status; cbn [fst].
  pose proof (pow2_ge_0 (position_max (rail_x c))) as Hsq.
  destruct (run_limit_xy2 c evs) as [[Exy Hxy] | [Exy Hxy]];
    destruct (run_limit_z c evs) as [[Ez Hz] | [Ez Hz]];
    rewrite Exy, Ez; cbn [fst snd get_range].
  - replace (Py.leb 0 (-1)) with false by (symmetry; apply leb_false; lra).
    replace (Py.leb 1 (-1)) with false by (symmetry; apply leb_false; lra).
    repeat split; intros; try reflexivity; tauto.
  - replace (Py.leb 0 (-1)) with false by (symmetry; apply leb_false; lra).
    replace (Py.leb _ _) with true by (symmetry; apply leb_true; lra).
    repeat split; intros; try reflexivity; tauto.
  - replace (Py.leb 1 (-1)) with false by (symmetry; apply leb_false; lra).
    replace (Py.leb _ _) with true by (symmetry; apply leb_true; lra).
    repeat split; intros; try reflexivity; tauto.
  - replace (Py.leb 0 _) with true by (symmetry; apply leb_true; lra).
    replace (Py.leb _ _) with true by (symmetry; apply leb_true; lra).
    repeat split; intros; try reflexivity; tauto.
Qed.

Lemma sample_history_homed :
  xy_homed_since sample_history /\ ~ z_homed_since sample_history.
Proof.
  split.
  - exists [], origin, [0; 1; 2]%nat, [NoteZNotHomed]; repeat split; reflexivity.
  - change sample_history
      with ([SetPosition origin [0; 1; 2]%nat] ++ [NoteZNotHomed]).
    unfold z_homed_since. rewrite homed_since_snoc.
    intros [(p & a & E & _) | [_ E]]; discriminate E.
Qed.

Lemma get_status_tracks_history_witness :
  fst (fst (get_status (run sample_config sample_history) 0)) = "xy"%string.
Proof.
  assert (H : position_min (rail_z sample_config)
              <= position_max (rail_z sample_config)) by (simpl; lra).
  destruct sample_history_homed as [Hxy Hz].
  apply (get_status_tracks_history sample_config sample_history 0 H); assumption.
Defined.

(** X19.  [get_status] reports the same [axis_minimum] and [axis_maximum]
    in every state reached from construction, and the box is symmetric
    about the centre in X and Y. *)
Theorem get_status_bounds_fixed (c : Config) (evs : list event) (eventtime : R) :
  let st := get_status (run c evs) eventtime in
  snd (fst st) = axes_min (init c)
  /\ snd st = axes_max (init c)
  /\ cx (snd (fst st)) = - cx (snd st)
  /\ cy (snd (fst st)) = - cy (snd st).
Proof.
  unfold get_status, axes_min, axes_max; cbn [fst snd].
  rewrite (run_config c evs); cbn [init config cx cy].
  repeat split; reflexivity.
Qed.

(** X20.  Naming the two planar axes in separate [set_position] calls does
    not home them: as long as no single call names both, the planar limit
    stays at its unhomed sentinel. *)
Theorem planar_axes_homed_together (c : Config) (evs : list event) :
  (forall newpos axes, In (SetPosition newpos axes) evs ->
     Py.contains 0 axes && Py.contains 1 axes = false) ->
  limit_xy2 (run c evs) = -1.
Proof.
  intros Hnone.
  destruct (run_limit_xy2 c evs) as [[E _] | [_ H]]; [exact E|].
  destruct H as (pre & newpos & axes & post & -> & Hsel & _).
  specialize (Hnone newpos axes).
  rewrite Hnone in Hsel; [discriminate Hsel|].
  apply in_or_app; right; left; reflexivity.
Qed.

Lemma planar_axes_homed_together_witness :
  limit_xy2 (run sample_config split_history) = -1.
Proof.
  apply (planar_axes_homed_together sample_config split_history).
  intros newpos axes [E | [E | []]]; injection E as _ <-; reflexivity.
Defined.



(** ** Homing, for every request *)

Lemma force_offset_far_end (rail : Rail) :
  force_offset rail 1 (homing_travel rail)
  = if positive_dir rail then position_min rail else position_max rail.
Proof. unfold force_offset, homing_travel; destruct (positive_dir rail); ring. Qed.

(** The trace of [home], whatever is requested. *)
Lemma home_trace (k : Kin) (homing_axes : list nat) :
  let rx := rail_x k in
  let rz := rail_z k in
  let fx := force_offset rx 1 (homing_travel rx) in
  let fz := force_offset rz 1 (homing_travel rz) in
  home k homing_axes
  = (set_axes (normalized_axes homing_axes)
     :: (if Py.contains 0 homing_axes || Py.contains 1 homing_axes
         then [home_rails [rx] [Some fx; Some 0; None; None]
                               [Some (position_endstop rx); Some 0; None; None];
               home_rails [rx] [None; Some fx; None; None]
                               [None; Some (position_endstop rx); None; None]]
         else [])
     ++ (if Py.contains 2 homing_axes
         then [home_rails [rz] [None; None; Some fz; None]
                               [None; None; Some (position_endstop rz); None]]
         else []),
     Py.Ok tt).
Proof.
  intros rx rz fx fz.
  unfold home, normalized_axes, Py.when.
  rewrite !home_axis_calls by lia.
  destruct (Py.contains 0 homing_axes || Py.contains 1 homing_axes),
    (Py.contains 2 homing_axes); reflexivity.
Qed.

Lemma normalized_axes_contains (homing_axes : list nat) :
  Py.contains 0 (normalized_axes homing_axes)
  || Py.contains 1 (normalized_axes homing_axes)
  = Py.contains 0 homing_axes || Py.contains 1 homing_axes
  /\ Py.contains 2 (normalized_axes homing_axes) = Py.contains 2 homing_axes.
Proof.
  unfold normalized_axes.
  destruct (Py.contains 0 homing_axes || Py.contains 1 homing_axes),
    (Py.contains 2 homing_axes); split; reflexivity.
Qed.

(** X22.  [home] returns normally for every list of requested axes, the
    empty list and axes other than 0, 1, 2 included; it makes two
    [home_rails] calls when a planar axis is requested plus one when axis 2
    is, and it does the same for a request as for its normalized form. *)
Theorem home_every_request (k : Kin) (homing_axes : list nat) :
  Py.outcome (home k homing_axes) = Py.Ok tt
  /\ count_home_rails (Py.calls (home k homing_axes))
     = ((if Py.contains 0 homing_axes || Py.contains 1 homing_axes then 2 else 0)
        + (if Py.contains 2 homing_axes then 1 else 0))%nat
  /\ home k (normalized_axes homing_axes) = home k homing_axes
  /\ normalized_axes (normalized_axes homing_axes) = normalized_axes homing_axes.
Proof.
  pose proof (normalized_axes_contains homing_axes) as [Hxy Hz].
  assert (Hn : normalized_axes (normalized_axes homing_axes)
               = normalized_axes homing_axes).
  { unfold normalized_axes at 1 3. rewrite Hxy, Hz. reflexivity. }
  split; [rewrite home_trace; reflexivity|].
  split.
  - rewrite home_trace; unfold Py.calls; cbn [fst].
    destruct (Py.contains 0 homing_axes || Py.contains 1 homing_axes),
      (Py.contains 2 homing_axes); reflexivity.
  - split; [|exact Hn].
    rewrite !home_trace, Hn, Hxy, Hz. reflexivity.
Qed.

(** X23.  Every homing move [home] hands over takes the rail's end stop as
    home position of its axis and forces the position, before homing, to
    the far end of the rail's range: [position_min] when homing in the
    positive direction, [position_max] otherwise. *)
Theorem home_forces_far_end (k : Kin) (homing_axes : list nat) (c : homing_call) :
  In c (Py.calls (home k homing_axes)) ->
  c = set_axes (normalized_axes homing_axes)
  \/ exists rail axis forcepos homepos,
       c = home_rails [rail] forcepos homepos
       /\ nth_error homepos axis = Some (Some (position_endstop rail))
       /\ nth_error forcepos axis
          = Some (Some (if positive_dir rail
                        then position_min rail else position_max rail)).
Proof.
  rewrite home_trace; unfold Py.calls; cbn [fst].
  intros [<- | Hin]; [left; reflexivity | right].
  apply in_app_or in Hin as [Hin | Hin].
  - destruct (_ || _); [|contradiction].
    destruct Hin as [<- | [<- | []]].
    + exists (rail_x k), 0%nat; do 2 eexists; repeat split;
        cbn [nth_error]; rewrite ?force_offset_far_end; reflexivity.
    + exists (rail_x k), 1%nat; do 2 eexists; repeat split;
        cbn [nth_error]; rewrite ?force_offset_far_end; reflexivity.
  - destruct (Py.contains 2 homing_axes); [|contradiction].
    destruct Hin as [<- | []].
    exists (rail_z k), 2%nat; do 2 eexists; repeat split;
      cbn [nth_error]; rewrite ?force_offset_far_end; reflexivity.
Qed.

Lemma home_forces_far_end_witness :
  home_rails [sample_rail_z] [None; None; Some (0 + (300 - 0)); None]
                             [None; None; Some 0; None]
  = set_axes (normalized_axes [2%nat])
  \/ exists rail axis forcepos homepos,
       home_rails [sample_rail_z] [None; None; Some (0 + (300 - 0)); None]
                                  [None; None; Some 0; None]
       = home_rails [rail] forcepos homepos
       /\ nth_error homepos axis = Some (Some (position_endstop rail))
       /\ nth_error forcepos axis
          = Some (Some (if positive_dir rail
                        then position_min rail else position_max rail)).
Proof.
  apply (home_forces_far_end sample_homed [2%nat]).
  right; left; reflexivity.
Defined.

(** The call [home2] makes for one of the axes 0 and 1. *)
Lemma home2_axis_trace (k : Kin) (axis : nat) :
  (axis < 2)%nat ->
  let rail := if Nat.eqb axis 0 then rail_x k else rail_z k in
  home2_axis k axis
  = ([home_rails [rail]
        (Py.update [None; None; None; None] axis
           (Some (force_offset rail 1.5 (homing_travel rail))))
        (Py.update [None; None; None; None] axis
           (Some (position_endstop rail)))],
     Py.Ok tt).
Proof.
  intros Haxis rail.
  apply home2_axis_calls.
  destruct axis as [|[|axis]]; [reflexivity | reflexivity | lia].
Qed.

(** X24.  For requested axes among 0 and 1, [home2] makes exactly one call
    per axis, in order: axis 0 on the radial rail and axis 1 on the second
    rail (the one [home] uses for axis 2), each with the end stop as home
    position of that axis and a force position 1.5 times the homing travel
    away from it. *)
Theorem home2_trace (k : Kin) (homing_axes : list nat) :
  Forall (fun axis => (axis < 2)%nat) homing_axes ->
  home2 k homing_axes
  = (map (fun axis =>
            let rail := if Nat.eqb axis 0 then rail_x k else rail_z k in
            home_rails [rail]
              (Py.update [None; None; None; None] axis
                 (Some (force_offset rail 1.5 (homing_travel rail))))
              (Py.update [None; None; None; None] axis
                 (Some (position_endstop rail))))
         homing_axes,
     Py.Ok tt).
Proof.
  unfold home2.
  induction 1 as [|axis rest Haxis _ IH]; [reflexivity|].
  cbn [home2_loop map].
  rewrite (home2_axis_trace k axis Haxis), IH.
  reflexivity.
Qed.

Lemma home2_trace_witness :
  home2 sample_homed [1%nat]
  = ([home_rails [sample_rail_z]
        [None; Some (force_offset sample_rail_z 1.5 (homing_travel sample_rail_z));
         None; None]
        [None; Some 0; None; None]],
     Py.Ok tt).
Proof.
  rewrite (home2_trace sample_homed [1%nat]) by (repeat constructor).
  reflexivity.
Defined.

(** X25.  [home2] stops at the first requested axis from 2 on: [self.rails]
    has two entries, so the lookup raises [IndexError]; the axes before it
    have been homed, the axes after it are not. *)
Theorem home2_stops_at_missing_rail (k : Kin) (before after : list nat) (axis : nat) :
  Forall (fun a => (a < 2)%nat) before ->
  (2 <= axis)%nat ->
  exists cs,
    home2 k (before ++ axis :: after) = (cs, Py.Raise Py.IndexError)
    /\ home2 k before = (cs, Py.Ok tt).
Proof.
  intros Hbefore Haxis.
  unfold home2.
  induction Hbefore as [|a rest Ha _ IH].
  - exists []; split; [|reflexivity].
    cbn [app home2_loop]. rewrite home2_axis_out_of_range by exact Haxis.
    reflexivity.
  - destruct IH as (cs & Efail & Eok).
    eexists; split; cbn [app home2_loop];
      rewrite (home2_axis_trace k a Ha); [rewrite Efail | rewrite Eok];
      reflexivity.
Qed.

Lemma home2_stops_at_missing_rail_witness :
  exists cs,
    home2 sample_homed [0; 1; 2]%nat = (cs, Py.Raise Py.IndexError)
    /\ home2 sample_homed [0; 1]%nat = (cs, Py.Ok tt).
Proof.
  apply (home2_stops_at_missing_rail sample_homed [0; 1]%nat [] 2).
  - repeat constructor.
  - lia.
Defined.

(** ** calc_position, keys and radius *)

(** X26.  [calc_position] raises [KeyError] exactly when the bed stepper's
    name or one of the two rails' names is missing from the positions it is
    given; extra keys do no harm. *)
Theorem calc_position_key_error (k : Kin) (sp : list (string * R)) :
  calc_position k sp = ([], Py.Raise Py.KeyError)
  <-> lookup sp (stepper_bed_name k) = None
      \/ lookup sp (get_name (rail_x k)) = None
      \/ lookup sp (get_name (rail_z k)) = None.
Proof.
  unfold calc_position, dict_get.
  destruct (lookup sp (stepper_bed_name k)) as [theta|];
    [|split; [intros _; left; reflexivity | reflexivity]].
  destruct (lookup sp (get_name (rail_x k))) as [r|];
    [|split; [intros _; right; left; reflexivity | reflexivity]].
  destruct (lookup sp (get_name (rail_z k))) as [z|];
    [|split; [intros _; right; right; reflexivity | reflexivity]].
  split; [intros E; discriminate E | intros [E | [E | E]]; discriminate E].
Qed.

(** X27.  The point [calc_position] returns determines the rail positions
    it came from: with [r] and [z] the positions of the two rails,
    [2 * z_cart - r = z] and [(2 * x + z)^2 + y^2 = r^2], whatever the bed
    angle. *)
Theorem calc_position_radius (k : Kin) (sp : list (string * R)) (theta r z : R) :
  lookup sp (stepper_bed_name k) = Some theta ->
  lookup sp (get_name (rail_x k)) = Some r ->
  lookup sp (get_name (rail_z k)) = Some z ->
  exists x y z_cart,
    calc_position k sp = ([], Py.Ok [[x; y; z_cart]])
    /\ 2 * z_cart - r = z
    /\ (2 * x + z) ^ 2 + y ^ 2 = r ^ 2.
Proof.
  intros Hb Hx Hz.
  rewrite (calc_position_unfold k sp theta r z Hb Hx Hz).
  do 3 eexists; split; [reflexivity|].
  split; [lra|].
  pose proof (sin2_cos2 theta) as H; unfold Rsqr in H.
  replace (2 * (0.5 * (cos theta * r - z)) + z) with (cos theta * r) by lra.
  replace ((cos theta * r) ^ 2 + (sin theta * r) ^ 2)
    with ((sin theta * sin theta + cos theta * cos theta) * r ^ 2) by ring.
  rewrite H; ring.
Qed.

Lemma calc_position_radius_witness :
  exists x y z_cart,
    calc_position (init sample_config) sample_positions
    = ([], Py.Ok [[x; y; z_cart]])
    /\ 2 * z_cart - 10 = 2
    /\ (2 * x + 2) ^ 2 + y ^ 2 = 10 ^ 2.
Proof.
  apply (calc_position_radius (init sample_config) sample_positions 0 10 2);
    reflexivity.
Defined.
